(** * kubedifflib: the asymmetric structural diff engine, its reporters and
      the check orchestrator.

    A shallow embedding of [kubedifflib/_diff.py] (Python 2).

    - Tree values are what [yaml.load] hands to the engine: mappings with
      string keys, sequences, and the scalars [None], [bool], [int], [str].
      Python's unbounded integers are [Z]; YAML floats are left out of the
      scalar domain.
    - A Python [dict] is an association list in the order in which the
      dictionary iterates ([iteritems]); lookups take the first binding.
    - A generator is the list of the values it yields together with the
      exception, if any, that ends the iteration: a consumer sees every
      value yielded before the exception is raised.
    - Methods that mutate a printer are state transformers that also say
      whether the call returned or raised.  The aggregating printer
      ([JSONPrinter]) is modelled; the text rendering of [to_text] and of
      [StdoutPrinter] is not.
    - The file system, the YAML parser and [kubectl] are collaborators of
      the orchestrator and enter it as functions. *)

From Stdlib Require Import String Ascii List ZArith Bool Lia DecimalString.
From Stdlib Require Import Permutation.
Import ListNotations.
Local Open Scope string_scope.
Local Open Scope list_scope.

(** ** Python values *)

Inductive scalar : Type :=
| SNone
| SBool (b : bool)
| SInt (z : Z)
| SStr (s : string).

Unset Elimination Schemes.
Inductive value : Type :=
| VScalar (s : scalar)
| VList (items : list value)
| VDict (items : list (string * value)).
Set Elimination Schemes.

(** Induction over a tree: the elements of a list and the values of a
    mapping are smaller trees. *)
Section ValueInduction.
Variable P : value -> Prop.
Hypothesis P_scalar : forall s, P (VScalar s).
Hypothesis P_list : forall l, (forall v, In v l -> P v) -> P (VList l).
Hypothesis P_dict : forall d, (forall k v, In (k, v) d -> P v) -> P (VDict d).

Fixpoint value_ind (v : value) : P v :=
  match v with
  | VScalar s => P_scalar s
  | VList l =>
      P_list l
        ((fix elements (l : list value) : forall x, In x l -> P x :=
            match l with
            | [] => fun _ absurd => match absurd with end
            | v0 :: l' => fun x H =>
                match H with
                | or_introl e => eq_ind v0 P (value_ind v0) x e
                | or_intror H' => elements l' x H'
                end
            end) l)
  | VDict d =>
      P_dict d
        ((fix bindings (d : list (string * value))
            : forall k x, In (k, x) d -> P x :=
            match d with
            | [] => fun _ _ absurd => match absurd with end
            | (k0, v0) :: d' => fun k x H =>
                match H with
                | or_introl e =>
                    eq_ind v0 P (value_ind v0) x (f_equal snd e)
                | or_intror H' => bindings d' k x H'
                end
            end) d)
  end.
End ValueInduction.

Definition VNone : value := VScalar SNone.
Definition VBool (b : bool) : value := VScalar (SBool b).
Definition VInt (z : Z) : value := VScalar (SInt z).
Definition VStr (s : string) : value := VScalar (SStr s).

(** Exceptions that the modelled code can raise. *)
Inductive exn : Type :=
| TypeError
| KeyError
| AttributeError.

Inductive result (A : Type) : Type :=
| Ok (a : A)
| Raise (e : exn).
Arguments Ok {A} a.
Arguments Raise {A} e.

(** [str(i)] for a non-negative [int], as [%d] prints it. *)
Definition dec (n : nat) : string := NilEmpty.string_of_uint (Nat.to_uint n).

(** *** Dictionaries *)

(** How a dictionary compares a key with a stored one. *)
Class KeyEq (K : Type) : Type := key_eqb : K -> K -> bool.

#[export] Instance string_KeyEq : KeyEq string := String.eqb.

Module Dict.
Section Ops.
Context {K V : Type} `{KeyEq K}.

Fixpoint get (k : K) (d : list (K * V)) : option V :=
  match d with
  | [] => None
  | (k', v) :: rest => if key_eqb k k' then Some v else get k rest
  end.

Definition mem (k : K) (d : list (K * V)) : bool :=
  match get k d with Some _ => true | None => false end.

(** [d[k] = v]: an existing binding keeps its key and takes the new
    value, a new binding is added. *)
Fixpoint set (k : K) (v : V) (d : list (K * V)) : list (K * V) :=
  match d with
  | [] => [(k, v)]
  | (k', v') :: rest =>
      if key_eqb k k' then (k', v) :: rest else (k', v') :: set k v rest
  end.

(** [d.setdefault(k, default)]: the dictionary afterwards and the
    value returned. *)
Definition setdefault (k : K) (default : V) (d : list (K * V))
  : list (K * V) * V :=
  match get k d with
  | Some v => (d, v)
  | None => (set k default d, default)
  end.

Definition keys (d : list (K * V)) : list K := map fst d.
End Ops.
End Dict.

(** *** Operators *)

(** [a == b] for a scalar [a]. [bool] is a subclass of [int], so [True == 1]
    and [False == 0]; a string equals only an equal string, [None] only
    [None], and no scalar equals a list or a dict. *)
Definition py_eq (a : scalar) (b : value) : bool :=
  match a, b with
  | SNone, VScalar SNone => true
  | SBool x, VScalar (SBool y) => Bool.eqb x y
  | SBool x, VScalar (SInt z) => Z.eqb (Z.b2z x) z
  | SInt z, VScalar (SBool y) => Z.eqb z (Z.b2z y)
  | SInt x, VScalar (SInt y) => Z.eqb x y
  | SStr x, VScalar (SStr y) => String.eqb x y
  | _, _ => false
  end.

(** [k in s] for two strings: [k] occurs in [s]. *)
Fixpoint substring_of (k s : string) : bool :=
  String.prefix k s ||
  match s with
  | EmptyString => false
  | String _ s' => substring_of k s'
  end.

(** [k in have] for a string [k]. *)
Definition py_contains (k : string) (have : value) : result bool :=
  match have with
  | VDict h => Ok (Dict.mem k h)
  | VList l => Ok (existsb (py_eq (SStr k)) l)
  | VScalar (SStr s) => Ok (substring_of k s)
  | VScalar _ => Raise TypeError
  end.

(** [have[k]] for a string [k]. *)
Definition py_getitem (have : value) (k : string) : result value :=
  match have with
  | VDict h => match Dict.get k h with Some v => Ok v | None => Raise KeyError end
  | VList _ => Raise TypeError
  | VScalar _ => Raise TypeError
  end.

(** [d.get(k, default)]: only a dict has the method. *)
Definition py_get (d : value) (k : string) (default : value) : result value :=
  match d with
  | VDict h => match Dict.get k h with Some v => Ok v | None => Ok default end
  | _ => Raise AttributeError
  end.

(** [len(have)]. *)
Definition py_len (have : value) : result nat :=
  match have with
  | VDict h => Ok (List.length h)
  | VList l => Ok (List.length l)
  | VScalar (SStr s) => Ok (String.length s)
  | VScalar _ => Raise TypeError
  end.

Fixpoint chars (s : string) : list value :=
  match s with
  | EmptyString => []
  | String c s' => VStr (String c EmptyString) :: chars s'
  end.

(** The items that iterating over [have] produces, as [zip] consumes them. *)
Definition py_iter (have : value) : result (list value) :=
  match have with
  | VDict h => Ok (map VStr (Dict.keys h))
  | VList l => Ok l
  | VScalar (SStr s) => Ok (chars s)
  | VScalar _ => Raise TypeError
  end.

(** ** Difference *)

Record Difference : Type := mkDifference {
  message : string;
  path : option string;
  args : list value
}.

(** [different_lengths] takes [len(want)] and [len(have)] from its caller. *)
Definition different_lengths (path : string) (want have : nat) : Difference :=
  mkDifference "Unequal lengths: %d != %d" (Some path)
    [VInt (Z.of_nat want); VInt (Z.of_nat have)].

Definition missing_item (path : string) (k : string) : Difference :=
  mkDifference "'%s' missing" (Some path) [VStr k].

Definition not_equal (path : string) (want have : value) : Difference :=
  mkDifference "'%s' != '%s'" (Some path) [want; have].

Definition broken_cluster (output : string) : Difference :=
  mkDifference " *** %s" None [VStr output].

(** ** Generators *)

Record Gen : Type := mkGen {
  yielded : list Difference;
  raised : option exn
}.

Definition done : Gen := mkGen [] None.
Definition yield (d : Difference) : Gen := mkGen [d] None.
Definition throw (e : exn) : Gen := mkGen [] (Some e).

(** Run [g1], then [g2] unless [g1] raised. *)
Definition gen_seq (g1 g2 : Gen) : Gen :=
  match raised g1 with
  | Some _ => g1
  | None => mkGen (yielded g1 ++ yielded g2) (raised g2)
  end.

Notation "g1 ;; g2" := (gen_seq g1 g2) (at level 61, right associativity).

(** ** The diff engine *)

Definition key_path (path k : string) : string := path ++ "." ++ k.
Definition index_path (path : string) (i : nat) : string :=
  path ++ "[" ++ dec i ++ "]".

Section Engine.
(** The recursive call to [diff] from [diff_lists] and [diff_dicts]. *)
Variable diff : string -> value -> value -> Gen.

(** The loop of [diff_lists] over [enumerate(zip(want, have))], from
    index [i] on. *)
Fixpoint diff_lists_loop (path : string) (i : nat)
         (want have : list value) : Gen :=
  match want, have with
  | want_v :: want', have_v :: have' =>
      diff (index_path path i) want_v have_v ;;
      diff_lists_loop path (S i) want' have'
  | _, _ => done
  end.

Definition diff_lists_of (path : string) (want : list value) (have : value) : Gen :=
  match py_len have with
  | Raise e => throw e
  | Ok n =>
      (if negb (Nat.eqb (List.length want) n)
       then yield (different_lengths path (List.length want) n)
       else done) ;;
      match py_iter have with
      | Raise e => throw e
      | Ok have_items => diff_lists_loop path 0 want have_items
      end
  end.

(** The loop of [diff_dicts] over [want.iteritems()]. *)
Fixpoint diff_dicts_of (path : string) (want : list (string * value))
         (have : value) : Gen :=
  match want with
  | [] => done
  | (k, want_v) :: want' =>
      match py_contains k have with
      | Raise e => throw e
      | Ok false => yield (missing_item path k) ;; diff_dicts_of path want' have
      | Ok true =>
          match py_getitem have k with
          | Raise e => throw e
          | Ok have_v =>
              diff (key_path path k) want_v have_v ;;
              diff_dicts_of path want' have
          end
      end
  end.
End Engine.

Fixpoint diff (path : string) (want have : value) {struct want} : Gen :=
  match want with
  | VDict d => diff_dicts_of diff path d have
  | VList l => diff_lists_of diff path l have
  | VScalar s =>
      if negb (py_eq s have) then yield (not_equal path want have) else done
  end.

Definition diff_dicts : string -> list (string * value) -> value -> Gen :=
  diff_dicts_of diff.
Definition diff_lists : string -> list value -> value -> Gen :=
  diff_lists_of diff.

(** ** Object identity *)

Record KubeObject : Type := mkKubeObject {
  namespace : value;
  kind : value;
  name : value
}.

Definition bind_result {A B : Type} (r : result A) (k : A -> result B) : result B :=
  match r with
  | Ok a => k a
  | Raise e => Raise e
  end.

Declare Scope result_scope.
Delimit Scope result_scope with result.
Notation "x <- r ; k" := (bind_result r (fun x => k))
  (at level 100, r at next level, right associativity) : result_scope.

Definition from_dict (data : value) : result KubeObject :=
  (kind <- py_getitem data "kind" ;
   metadata <- py_getitem data "metadata" ;
   name <- py_getitem metadata "name" ;
   metadata' <- py_getitem data "metadata" ;
   namespace <- py_get metadata' "namespace" (VStr "default") ;
   Ok (mkKubeObject namespace kind name))%result.

(** What [kubectl get] gives for an object: the live tree, or a non-zero
    exit with the process output. *)
Inductive fetch_result : Type :=
| Fetched (running : value)
| CalledProcessError (output : string).

(** ** Printers *)

(** A call on a printer: the printer afterwards, and whether the call
    returned or raised. *)
Definition call (P A : Type) : Type := P -> P * result A.

Definition ret {P A : Type} (a : A) : call P A := fun p => (p, Ok a).

Definition fail {P A : Type} (e : exn) : call P A := fun p => (p, Raise e).

Definition bind {P A B : Type} (c : call P A) (k : A -> call P B) : call P B :=
  fun p =>
    match c p with
    | (p', Ok a) => k a p'
    | (p', Raise e) => (p', Raise e)
    end.

Definition lift {P A : Type} (r : result A) : call P A := fun p => (p, r).

Declare Scope call_scope.
Delimit Scope call_scope with call.
Notation "x <- c ; k" := (bind c (fun x => k))
  (at level 100, c at next level, right associativity) : call_scope.
Notation "c >> k" := (bind c (fun _ => k))
  (at level 100, right associativity) : call_scope.

(** The methods that [check_file] and [check_files] call on a printer. *)
Class Printer (P : Type) : Type := {
  printer_add : KubeObject -> call P unit;
  printer_diff : KubeObject -> Difference -> call P unit;
  printer_finish : call P unit
}.

(** Keys of the dictionaries of [JSONPrinter]: a scalar is hashable, equal
    scalars ([True] and [1]) are one key; a list or a dict is unhashable. *)
#[export] Instance scalar_KeyEq : KeyEq scalar := fun a b => py_eq a (VScalar b).

Definition hash_key (v : value) : result scalar :=
  match v with
  | VScalar s => Ok s
  | _ => Raise TypeError
  end.

Definition path_value (p : option string) : value :=
  match p with
  | Some s => VStr s
  | None => VNone
  end.

Module JSONPrinter.
(** One recorded difference: [[difference.path] + list(difference.args)]. *)
Definition entry : Type := list value.
Definition by_name : Type := list (scalar * list entry).
Definition by_kind : Type := list (scalar * by_name).

(** [data] is [self.data]; [printed] is what [finish] has handed to
    [json.dumps] and [print], oldest first. *)
Record t : Type := mk {
  data : by_kind;
  printed : list by_kind
}.

Definition init : t := mk [] [].

Definition with_data (d : by_kind) (p : t) : t := mk d (printed p).

Definition add (kube_obj : KubeObject) : call t unit :=
  fun self =>
    match hash_key (kind kube_obj) with
    | Raise e => (self, Raise e)
    | Ok k =>
        let (data1, names) := Dict.setdefault k [] (data self) in
        match hash_key (name kube_obj) with
        | Raise e => (with_data data1 self, Raise e)
        | Ok n =>
            let (names', _) := Dict.setdefault n [] names in
            (with_data (Dict.set k names' data1) self, Ok tt)
        end
    end.

Definition diff (kube_obj : KubeObject) (difference : Difference) : call t unit :=
  fun self =>
    match hash_key (kind kube_obj) with
    | Raise e => (self, Raise e)
    | Ok k =>
        match Dict.get k (data self) with
        | None => (self, Raise KeyError)
        | Some names =>
            match hash_key (name kube_obj) with
            | Raise e => (self, Raise e)
            | Ok n =>
                match Dict.get n names with
                | None => (self, Raise KeyError)
                | Some record =>
                    let record' :=
                      record ++ [path_value (path difference) :: args difference] in
                    (with_data (Dict.set k (Dict.set n record' names) (data self)) self,
                     Ok tt)
                end
            end
        end
    end.

Definition finish : call t unit :=
  fun self => (mk (data self) (printed self ++ [data self]), Ok tt).

(** The record of an object, if it is registered. *)
Definition record_of (k n : scalar) (self : t) : option (list entry) :=
  match Dict.get k (data self) with
  | Some names => Dict.get n names
  | None => None
  end.
End JSONPrinter.

#[export] Instance JSONPrinter_Printer : Printer JSONPrinter.t := {
  printer_add := JSONPrinter.add;
  printer_diff := JSONPrinter.diff;
  printer_finish := JSONPrinter.finish
}.

(** ** The check orchestrator *)

(** [differences += x] for an [int] on the left: [bool] is an [int], any
    other operand is a [TypeError]. *)
Definition py_iadd (differences : Z) (x : value) : result Z :=
  match x with
  | VScalar (SInt z) => Ok (differences + z)%Z
  | VScalar (SBool b) => Ok (differences + Z.b2z b)%Z
  | _ => Raise TypeError
  end.

Section Orchestrator.
Context {P : Type} `{Printer P}.

(** The collaborators: [yaml.load] of an opened file, [kubectl get] behind
    [get_from_cluster], the files that [iter_files] finds under the paths,
    and the extension that [os.path.splitext] gives. *)
Variable yaml_load : string -> value.
Variable get_from_cluster : KubeObject -> fetch_result.
Variable iter_files : list string -> list string.
Variable splitext_extension : string -> string.

(** The loop of [check_file] over the generator: each difference is
    counted and handed to the printer as it is yielded; an exception of
    the generator is raised once the values before it are consumed. *)
Fixpoint forward (kube_obj : KubeObject) (ds : list Difference)
         (stop : option exn) (differences : Z) : call P Z :=
  match ds with
  | difference :: ds' =>
      (printer_diff kube_obj difference >>
       forward kube_obj ds' stop (differences + 1)%Z)%call
  | [] =>
      match stop with
      | Some e => fail e
      | None => ret differences
      end
  end.

(** [check_file]: the value returned is [None] after a failed fetch and
    the count otherwise. *)
Definition check_file (path : string) : call P value :=
  let expected := yaml_load path in
  (kube_obj <- lift (from_dict expected) ;
   printer_add kube_obj >>
   match get_from_cluster kube_obj with
   | CalledProcessError output =>
       printer_diff kube_obj (broken_cluster output) >>
       ret VNone
   | Fetched running =>
       let g := diff "" expected running in
       differences <- forward kube_obj (yielded g) (raised g) 0%Z ;
       ret (VInt differences)
   end)%call.

(** The loop of [check_files] over the files that [iter_files] yields. *)
Fixpoint check_files_loop (files : list string) (differences : Z) : call P Z :=
  match files with
  | [] => ret differences
  | path :: files' =>
      if negb (String.eqb (splitext_extension path) ".yaml")
      then check_files_loop files' differences
      else
        (r <- check_file path ;
         differences' <- lift (py_iadd differences r) ;
         check_files_loop files' differences')%call
  end.

Definition check_files (paths : list string) : call P bool :=
  (differences <- check_files_loop (iter_files paths) 0%Z ;
   printer_finish >>
   ret (negb (Z.eqb differences 0)))%call.
End Orchestrator.

(** ** Text *)

(** [str(i)] for an [int], with its sign. *)
Definition dec_int (z : Z) : string := NilZero.string_of_int (Z.to_int z).

(** What the operator [%] gives: the text, an exception, or nothing that
    this development says, for a template with a directive other than
    [%s], [%d] and [%%]. *)
Inductive formatted : Type :=
| Formatted (text : string)
| FormatError (e : exn)
| Unmodelled.

Definition prepend (s : string) (r : formatted) : formatted :=
  match r with
  | Formatted text => Formatted (s ++ text)
  | other => other
  end.

(** The [int] that [%d] prints for an argument. *)
Definition number_of (v : value) : option Z :=
  match v with
  | VScalar (SInt z) => Some z
  | VScalar (SBool b) => Some (Z.b2z b)
  | _ => None
  end.

Section Text.
(** [repr] of a list or of a dict, which is what [str] gives for them. *)
Variable repr_container : value -> string.

Definition py_str (v : value) : string :=
  match v with
  | VScalar SNone => "None"
  | VScalar (SBool true) => "True"
  | VScalar (SBool false) => "False"
  | VScalar (SInt z) => dec_int z
  | VScalar (SStr s) => s
  | _ => repr_container v
  end.

(** [template % args] for a tuple [args]: the directives take the
    arguments from left to right; too few arguments, a [%d] for what is
    not a number, and arguments left over are each a [TypeError]. *)
Fixpoint format (template : string) (args : list value) : formatted :=
  match template with
  | EmptyString =>
      match args with
      | [] => Formatted ""
      | _ :: _ => FormatError TypeError
      end
  | String "%" (String "s" rest) =>
      match args with
      | [] => FormatError TypeError
      | a :: args' => prepend (py_str a) (format rest args')
      end
  | String "%" (String "d" rest) =>
      match args with
      | [] => FormatError TypeError
      | a :: args' =>
          match number_of a with
          | Some z => prepend (dec_int z) (format rest args')
          | None => FormatError TypeError
          end
      end
  | String "%" (String "%" rest) => prepend "%" (format rest args)
  | String "%" _ => Unmodelled
  | String c rest => prepend (String c EmptyString) (format rest args)
  end.

(** [Difference.to_text]. *)
Definition to_text (d : Difference) : formatted :=
  match format (message d) (args d) with
  | Formatted message =>
      match path d with
      | None => Formatted message
      | Some p => format "%s: %s" [VStr p; VStr message]
      end
  | other => other
  end.
End Text.

(** ** Files *)

Module Files.
Section OS.
(** [os.path.isfile], [os.walk], which gives for a directory and each
    directory below it the triple of its path, its directories and its
    files, and [os.path.join]. *)
Variable isfile : string -> bool.
Variable walk : string -> list (string * list string * list string).
Variable join : string -> string -> string.

Definition files_below (path : string) : list string :=
  flat_map (fun entry : string * list string * list string =>
              let '(root, _dirs, filenames) := entry in
              map (join root) filenames)
           (walk path).

Fixpoint iter_files (paths : list string) : list string :=
  match paths with
  | [] => []
  | path :: paths' =>
      (if isfile path then [path] else files_below path) ++ iter_files paths'
  end.
End OS.
End Files.

(** * Vocabulary of the properties *)

(** ** Generators and paths *)

Definition gen_concat (gs : list Gen) : Gen := fold_right gen_seq done gs.

(** [extends root q]: [q] is [root] followed by [.key] and [[index]]
    segments. *)
Inductive extends (root : string) : string -> Prop :=
| extends_here : extends root root
| extends_key (q k : string) : extends root q -> extends root (key_path q k)
| extends_index (q : string) (i : nat) : extends root q -> extends root (index_path q i).

Create HintDb paths.
#[local] Hint Constructors extends : paths.

(** A difference that carries a path under [root]. *)
Definition under (root : string) (d : Difference) : Prop :=
  exists q, path d = Some q /\ extends root q.

(** ** Mappings and sequences *)

(** What [diff_dicts] does for one binding of [want] when [have] is a
    mapping, in the words of the traversal rule. *)
Definition diff_key (p : string) (have : list (string * value))
           (binding : string * value) : Gen :=
  let (k, want_v) := binding in
  match Dict.get k have with
  | None => yield (missing_item p k)
  | Some have_v => diff (key_path p k) want_v have_v
  end.

(** The recursion of [diff_lists] at index [i], when both sequences have
    an element there. *)
Definition diff_index (p : string) (want have : list value) (i : nat) : Gen :=
  match nth_error want i, nth_error have i with
  | Some want_v, Some have_v => diff (index_path p i) want_v have_v
  | _, _ => done
  end.

Definition is_different_lengths_at (p : string) (d : Difference) : bool :=
  String.eqb (message d) "Unequal lengths: %d != %d" &&
  match path d with
  | Some q => String.eqb q p
  | None => false
  end.

(** ** Scalars *)

(** The primitive types of the specification. *)
Inductive primitive : Type := PString | PNumber | PBoolean | PNull.

Definition primitive_of (s : scalar) : primitive :=
  match s with
  | SNone => PNull
  | SBool _ => PBoolean
  | SInt _ => PNumber
  | SStr _ => PString
  end.

(** The integer that a boolean or a number stands for. *)
Definition as_int (s : scalar) : option Z :=
  match s with
  | SBool b => Some (Z.b2z b)
  | SInt z => Some z
  | _ => None
  end.

Definition same_int (a b : scalar) : bool :=
  match as_int a, as_int b with
  | Some x, Some y => Z.eqb x y
  | _, _ => false
  end.

(** ** Shapes *)

Section Conforms.
Variable conforms : value -> value -> bool.

Fixpoint conforms_lists (want have : list value) : bool :=
  match want, have with
  | w :: want', h :: have' => conforms w h && conforms_lists want' have'
  | _, _ => true
  end.

Fixpoint conforms_dicts (want have : list (string * value)) : bool :=
  match want with
  | [] => true
  | (k, w) :: want' =>
      match Dict.get k have with
      | Some h => conforms w h
      | None => true
      end && conforms_dicts want' have
  end.
End Conforms.

(** [have] has the shape that [want] expects wherever [diff] goes: a
    mapping under a mapping, a sequence under a sequence, anything under a
    scalar. *)
Fixpoint conforms (want have : value) {struct want} : bool :=
  match want with
  | VScalar _ => true
  | VList l =>
      match have with
      | VList h => conforms_lists conforms l h
      | _ => false
      end
  | VDict d =>
      match have with
      | VDict h => conforms_dicts conforms d h
      | _ => false
      end
  end.

(** Numbers, booleans and [None]: the scalars on which neither [in] nor
    [len] is defined. *)
Definition atom (s : scalar) : bool :=
  match s with
  | SStr _ => false
  | _ => true
  end.

(** ** Declared objects *)

(** The field of a declared tree at a path of mapping keys, if every key
    on the way is present in a mapping. *)
Fixpoint field (keys : list string) (data : value) : option value :=
  match keys with
  | [] => Some data
  | k :: keys' =>
      match data with
      | VDict d =>
          match Dict.get k d with
          | Some v => field keys' v
          | None => None
          end
      | _ => None
      end
  end.

(** Two declared services, of which the cluster has only the second. *)
Definition service (n : string) : value :=
  VDict [("kind", VStr "Service"); ("metadata", VDict [("name", VStr n)])].

Definition two_services (path : string) : value :=
  if String.eqb path "a.yaml" then service "a" else service "b".

Definition cluster_without_a (kube_obj : KubeObject) : fetch_result :=
  if py_eq (SStr "a") (name kube_obj)
  then CalledProcessError "Error from server (NotFound)"
  else Fetched (service "b").

Definition plain_files (paths : list string) : list string := paths.

Definition yaml_extension (path : string) : string := ".yaml".

(** ** Trees as Python builds them *)

Section WellFormed.
Variable well_formed : value -> bool.

(** No key occurs twice, and the values are well formed. *)
Fixpoint unique_keys (d : list (string * value)) : bool :=
  match d with
  | [] => true
  | (k, v) :: d' => negb (Dict.mem k d') && well_formed v && unique_keys d'
  end.
End WellFormed.

(** A tree whose mappings, at every depth, bind each key once, as a
    Python [dict] does. *)
Fixpoint well_formed (v : value) : bool :=
  match v with
  | VScalar _ => true
  | VList l => forallb well_formed l
  | VDict d => unique_keys well_formed d
  end.

(** ** Coverage *)

Section Covers.
Variable covers : value -> value -> bool.

Fixpoint covers_lists (want have : list value) : bool :=
  match want, have with
  | [], [] => true
  | w :: want', h :: have' => covers w h && covers_lists want' have'
  | _, _ => false
  end.

Fixpoint covers_dicts (want have : list (string * value)) : bool :=
  match want with
  | [] => true
  | (k, w) :: want' =>
      match Dict.get k have with
      | Some h => covers w h
      | None => false
      end && covers_dicts want' have
  end.
End Covers.

(** [have] has everything that [want] declares: an equal value under every
    scalar, a sequence of the same length with covering elements under
    every sequence, a mapping with every key and a covering value under
    every mapping. *)
Fixpoint covers (want have : value) {struct want} : bool :=
  match want with
  | VScalar s => py_eq s have
  | VList l =>
      match have with
      | VList h => covers_lists covers l h
      | _ => false
      end
  | VDict d =>
      match have with
      | VDict h => covers_dicts covers d h
      | _ => false
      end
  end.

(** ** Outcomes under another root *)

(** The Difference with [prefix] put before its path. *)
Definition relocate_difference (prefix : string) (d : Difference) : Difference :=
  mkDifference (message d) (option_map (String.append prefix) (path d)) (args d).

Definition relocate (prefix : string) (g : Gen) : Gen :=
  mkGen (map (relocate_difference prefix) (yielded g)) (raised g).

(** ** The size of a declaration *)

Section Size.
Variable size : value -> nat.

Fixpoint size_list (l : list value) : nat :=
  match l with
  | [] => 0
  | v :: l' => size v + size_list l'
  end.

Fixpoint size_dict (d : list (string * value)) : nat :=
  match d with
  | [] => 0
  | (_, v) :: d' => size v + size_dict d'
  end.
End Size.

(** The number of scalars, sequences and mappings in a tree. *)
Fixpoint size (v : value) : nat :=
  match v with
  | VScalar _ => 1
  | VList l => S (size_list size l)
  | VDict d => S (size_dict size d)
  end.

(** ** Genuine differences *)

(** The three Differences of the engine, each with what makes it one: two
    lengths that differ, a key, a scalar and a value that is not equal
    to it. *)
Inductive genuine : Difference -> Prop :=
| genuine_lengths (p : string) (n m : nat) :
    n <> m -> genuine (different_lengths p n m)
| genuine_missing (p k : string) :
    genuine (missing_item p k)
| genuine_not_equal (p : string) (s : scalar) (have : value) :
    py_eq s have = false -> genuine (not_equal p (VScalar s) have).

(** ** The report of the aggregating printer *)

(** The entry that [JSONPrinter.diff] records for a Difference. *)
Definition entry_of (d : Difference) : JSONPrinter.entry :=
  path_value (path d) :: args d.

(** The record of an object, empty when the object is not registered. *)
Definition record_or_empty (k n : scalar) (self : JSONPrinter.t)
  : list JSONPrinter.entry :=
  match JSONPrinter.record_of k n self with
  | Some r => r
  | None => []
  end.

Fixpoint entries_by_name (names : JSONPrinter.by_name) : nat :=
  match names with
  | [] => 0
  | (_, r) :: names' => List.length r + entries_by_name names'
  end.

(** The number of entries recorded in [self.data], over all objects. *)
Fixpoint entries (data : JSONPrinter.by_kind) : nat :=
  match data with
  | [] => 0
  | (_, names) :: data' => entries_by_name names + entries data'
  end.

(** The scalar that stands for all the scalars equal to [s]: [True] and
    [1] are one dictionary key, [False] and [0] another. *)
Definition key_class (s : scalar) : scalar :=
  match s with
  | SBool b => SInt (Z.b2z b)
  | _ => s
  end.

(** ** Files *)

Definition is_yaml (splitext_extension : string -> string) (path : string) : bool :=
  String.eqb (splitext_extension path) ".yaml".

Definition is_dict (v : value) : bool :=
  match v with
  | VDict _ => true
  | _ => false
  end.

(** A call that leaves what the printer has printed as it is. *)
Definition keeps_printed {A : Type} (c : call JSONPrinter.t A) : Prop :=
  forall self, JSONPrinter.printed (fst (c self)) = JSONPrinter.printed self.

(** A declared service and the live one, which has one port less. *)
Definition declared_web : value :=
  VDict [("kind", VStr "Service");
         ("metadata", VDict [("name", VStr "web")]);
         ("spec", VDict [("ports", VList [VInt 80; VInt 443])])].

Definition live_web : value :=
  VDict [("kind", VStr "Service");
         ("metadata", VDict [("name", VStr "web"); ("namespace", VStr "default")]);
         ("spec", VDict [("ports", VList [VInt 80])])].

(** ** Live trees that differ in the order of their keys *)

(** Two trees with the same scalars, the same elements in their
    sequences, and, in their mappings, the same keys with the same values,
    in whatever order the mappings hold them. *)
Unset Elimination Schemes.
Inductive same_tree : value -> value -> Prop :=
| same_scalar (s : scalar) : same_tree (VScalar s) (VScalar s)
| same_list (l l' : list value) :
    Forall2 same_tree l l' -> same_tree (VList l) (VList l')
| same_dict (h h' : list (string * value)) :
    (forall k a, Dict.get k h = Some a ->
                 exists b, Dict.get k h' = Some b /\ same_tree a b) ->
    (forall k, Dict.get k h = None -> Dict.get k h' = None) ->
    same_tree (VDict h) (VDict h').
Set Elimination Schemes.

(** Two Differences with the same message and path, and values that are
    the same up to the order of the keys. *)
Definition same_difference (d d' : Difference) : Prop :=
  message d = message d' /\ path d = path d' /\
  Forall2 same_tree (args d) (args d').

Definition same_outcome (g g' : Gen) : Prop :=
  Forall2 same_difference (yielded g) (yielded g') /\ raised g = raised g'.

(** ** The bindings of the declared mapping, one by one *)

(** What [diff_dicts] does for one binding of [want], whatever [have]
    is. *)
Definition diff_binding (p : string) (have : value)
           (binding : string * value) : Gen :=
  let (k, want_v) := binding in
  match py_contains k have with
  | Raise e => throw e
  | Ok false => yield (missing_item p k)
  | Ok true =>
      match py_getitem have k with
      | Raise e => throw e
      | Ok have_v => diff (key_path p k) want_v have_v
      end
  end.

(** * Properties *)

(** ** Generators in sequence *)

Lemma gen_seq_yield (d : Difference) (g : Gen) :
  yield d ;; g = mkGen (d :: yielded g) (raised g).
Proof. reflexivity. Qed.

Lemma gen_seq_done_l (g : Gen) : done ;; g = g.
Proof. destruct g; reflexivity. Qed.

Lemma gen_seq_throw (e : exn) (g : Gen) : throw e ;; g = throw e.
Proof. reflexivity. Qed.

Lemma gen_seq_yielded (g1 g2 : Gen) (d : Difference) :
  In d (yielded (g1 ;; g2)) -> In d (yielded g1) \/ In d (yielded g2).
Proof.
  unfold gen_seq. destruct (raised g1); simpl; intros Hin.
  - now left.
  - now apply in_app_or.
Qed.

Lemma gen_seq_raised_none (g1 g2 : Gen) :
  raised g1 = None -> raised g2 = None -> raised (g1 ;; g2) = None.
Proof. unfold gen_seq. intros -> H2. exact H2. Qed.

(** When no generator of a sequence raises, the sequence yields what they
    yield, one after the other. *)
Lemma gen_concat_no_raise (gs : list Gen) :
  (forall g, In g gs -> raised g = None) ->
  gen_concat gs = mkGen (concat (map yielded gs)) None.
Proof.
  induction gs as [|g gs IH]; intros Hnone; [reflexivity|].
  simpl. unfold gen_seq. rewrite (Hnone g) by now left.
  rewrite IH by (intros g' Hg'; apply Hnone; now right). reflexivity.
Qed.

(** ** The equations of the engine *)

Lemma diff_scalar (p : string) (s : scalar) (have : value) :
  diff p (VScalar s) have =
  if negb (py_eq s have) then yield (not_equal p (VScalar s) have) else done.
Proof. reflexivity. Qed.

Lemma diff_list (p : string) (want : list value) (have : value) :
  diff p (VList want) have = diff_lists p want have.
Proof. reflexivity. Qed.

Lemma diff_dict (p : string) (want : list (string * value)) (have : value) :
  diff p (VDict want) have = diff_dicts p want have.
Proof. reflexivity. Qed.

Lemma diff_dicts_nil (p : string) (have : value) : diff_dicts p [] have = done.
Proof. reflexivity. Qed.

Lemma diff_dicts_cons (p k : string) (want_v : value)
      (want : list (string * value)) (have : value) :
  diff_dicts p ((k, want_v) :: want) have =
  match py_contains k have with
  | Raise e => throw e
  | Ok false => yield (missing_item p k) ;; diff_dicts p want have
  | Ok true =>
      match py_getitem have k with
      | Raise e => throw e
      | Ok have_v => diff (key_path p k) want_v have_v ;; diff_dicts p want have
      end
  end.
Proof. reflexivity. Qed.

(** ** Dictionaries with string keys *)

Lemma string_key_eqb (a b : string) : key_eqb a b = String.eqb a b.
Proof. reflexivity. Qed.

Lemma get_set_other {V : Type} (k extra : string) (v : V) (d : list (string * V)) :
  k <> extra -> Dict.get k (Dict.set extra v d) = Dict.get k d.
Proof.
  intros Hne. induction d as [|[k' v'] d IH]; simpl.
  - rewrite string_key_eqb. now apply String.eqb_neq in Hne as ->.
  - rewrite !string_key_eqb.
    destruct (String.eqb extra k') eqn:Hextra; simpl; rewrite string_key_eqb.
    + apply String.eqb_eq in Hextra. subst k'.
      now apply String.eqb_neq in Hne as ->.
    + destruct (String.eqb k k'); [reflexivity | exact IH].
Qed.

Lemma get_none_head {V : Type} (extra k : string) (v : V) (d : list (string * V)) :
  Dict.get extra ((k, v) :: d) = None -> k <> extra /\ Dict.get extra d = None.
Proof.
  simpl. rewrite string_key_eqb.
  destruct (String.eqb extra k) eqn:E; [discriminate|].
  intros Hd. split; [|exact Hd].
  apply String.eqb_neq in E. congruence.
Qed.

(** ** Paths *)

Lemma length_append (s1 s2 : string) :
  String.length (s1 ++ s2) = String.length s1 + String.length s2.
Proof. induction s1 as [|c s1 IH]; simpl; [reflexivity | now rewrite IH]. Qed.

Lemma extends_trans (p q r : string) : extends p q -> extends q r -> extends p r.
Proof. intros Hpq Hqr. induction Hqr; auto with paths. Qed.

Lemma extends_length (p q : string) :
  extends p q -> String.length p <= String.length q.
Proof.
  induction 1 as [|q k _ IH|q i _ IH]; [lia| |];
    unfold key_path, index_path; rewrite length_append; lia.
Qed.

Lemma index_path_longer (p : string) (i : nat) :
  String.length p < String.length (index_path p i).
Proof. unfold index_path. rewrite length_append. simpl. lia. Qed.

Lemma under_step (p q : string) (d : Difference) :
  extends p q -> under q d -> under p d.
Proof. intros Hpq (r & Hr & Hqr). exists r. eauto using extends_trans. Qed.

Lemma diff_lists_loop_under (p : string) (want : list value) :
  (forall v, In v want ->
     forall p' have d, In d (yielded (diff p' v have)) -> under p' d) ->
  forall i have d,
    In d (yielded (diff_lists_loop diff p i want have)) -> under p d.
Proof.
  induction want as [|w want IH]; intros Hrec i have d; simpl.
  - intros [].
  - destruct have as [|h have]; [intros []|].
    intros Hin. apply gen_seq_yielded in Hin as [Hin|Hin].
    + eapply under_step; [|eapply Hrec; [now left | exact Hin]].
      auto with paths.
    + eapply IH; [|exact Hin]. intros v Hv. apply Hrec. now right.
Qed.

Lemma diff_dicts_under (p : string) (want : list (string * value)) :
  (forall k v, In (k, v) want ->
     forall p' have d, In d (yielded (diff p' v have)) -> under p' d) ->
  forall have d, In d (yielded (diff_dicts p want have)) -> under p d.
Proof.
  induction want as [|[k w] want IH]; intros Hrec have d.
  - intros [].
  - rewrite diff_dicts_cons.
    assert (Hrest : In d (yielded (diff_dicts p want have)) -> under p d).
    { apply IH. intros k' v' Hin. apply (Hrec k' v'). now right. }
    destruct (py_contains k have) as [[|]|e]; [| |intros []].
    + destruct (py_getitem have k) as [have_v|e]; [|intros []].
      intros Hin. apply gen_seq_yielded in Hin as [Hin|Hin]; [|auto].
      eapply under_step; [|eapply (Hrec k w); [now left | exact Hin]].
      auto with paths.
    + intros Hin. apply gen_seq_yielded in Hin as [Hin|Hin]; [|auto].
      destruct Hin as [<-|[]]. exists p. auto with paths.
Qed.

Lemma diff_under (want : value) :
  forall p have d, In d (yielded (diff p want have)) -> under p d.
Proof.
  induction want as [s|want IH|want IH] using value_ind; intros p have d.
  - rewrite diff_scalar. destruct (negb (py_eq s have)); [|intros []].
    intros [<-|[]]. exists p. auto with paths.
  - rewrite diff_list. unfold diff_lists, diff_lists_of.
    destruct (py_len have) as [n|e]; [|intros []].
    intros Hin. apply gen_seq_yielded in Hin as [Hin|Hin].
    + destruct (negb _); [|destruct Hin].
      destruct Hin as [<-|[]]. exists p. auto with paths.
    + destruct (py_iter have) as [items|e]; [|destruct Hin].
      eapply diff_lists_loop_under; eauto.
  - rewrite diff_dict. apply diff_dicts_under. exact IH.
Qed.

(** ** Mappings against mappings *)

(** C6: for mappings [want] and [have], [diff] goes through the keys of
    [want] in iteration order; a key absent from [have] yields the "missing
    item" Difference at the parent path naming the key, without recursion; a
    key present in [have] yields everything that [diff] yields for the two
    values under the path extended by [.k].  An exception raised in a
    recursive call ends the sequence there; when none is raised the
    outcome is all of these, one after the other.  The "missing item"
    Difference is the record with the message ['%s' missing], the parent
    path and the key as its one argument. *)
Theorem diff_dicts_per_key :
  forall (p : string) (want have : list (string * value)),
    diff p (VDict want) (VDict have) = gen_concat (map (diff_key p have) want)
    /\ ((forall binding, In binding want ->
                         raised (diff_key p have binding) = None) ->
        diff p (VDict want) (VDict have) =
        mkGen (concat (map (fun binding => yielded (diff_key p have binding)) want))
              None)
    /\ (forall k want_v,
          Dict.get k have = None ->
          diff_key p have (k, want_v) =
          mkGen [mkDifference "'%s' missing" (Some p) [VScalar (SStr k)]] None)
    /\ (forall k want_v have_v,
          Dict.get k have = Some have_v ->
          diff_key p have (k, want_v) = diff (p ++ "." ++ k) want_v have_v).
Proof.
  intros p want have.
  assert (Heq : diff p (VDict want) (VDict have) =
                gen_concat (map (diff_key p have) want)).
  { rewrite diff_dict.
    induction want as [|[k want_v] want IH]; [reflexivity|].
    rewrite diff_dicts_cons. simpl map. simpl gen_concat. rewrite <- IH.
    unfold py_contains, py_getitem, Dict.mem, diff_key.
    destruct (Dict.get k have); reflexivity. }
  split; [exact Heq|]. split; [|split].
  - intros Hnone. rewrite Heq, gen_concat_no_raise, map_map; [reflexivity|].
    intros g Hg. apply in_map_iff in Hg as (binding & <- & Hin). auto.
  - intros k want_v Hget. unfold diff_key. now rewrite Hget.
  - intros k want_v have_v Hget. unfold diff_key. now rewrite Hget.
Qed.

Lemma diff_dicts_per_key_witness :
  diff ".spec" (VDict [("a", VInt 1); ("b", VInt 2)]) (VDict [("a", VInt 3)]) =
  mkGen (concat (map (fun binding => yielded (diff_key ".spec" [("a", VInt 3)] binding))
                     [("a", VInt 1); ("b", VInt 2)]))
        None.
Proof.
  apply (proj1 (proj2 (diff_dicts_per_key ".spec" [("a", VInt 1); ("b", VInt 2)]
                         [("a", VInt 3)]))).
  intros binding [<-|[<-|[]]]; reflexivity.
Defined.

(** The example of the specification: [want = {"a": 1, "b": 2}],
    [have = {"a": 1}]. *)
Example diff_dicts_example :
  diff "" (VDict [("a", VInt 1); ("b", VInt 2)]) (VDict [("a", VInt 1)]) =
  mkGen [missing_item "" "b"] None.
Proof. reflexivity. Qed.

(** C4: adding to [have] a key that [want] does not have leaves the
    outcome of [diff] unchanged. *)
Theorem diff_ignores_extra_key :
  forall (p : string) (want have : list (string * value))
         (extra : string) (anything : value),
    Dict.get extra want = None ->
    diff p (VDict want) (VDict (Dict.set extra anything have)) =
    diff p (VDict want) (VDict have).
Proof.
  intros p want have extra anything. rewrite !diff_dict.
  induction want as [|[k want_v] want IH]; intros Habsent; [reflexivity|].
  apply get_none_head in Habsent as [Hne Hrest].
  rewrite !diff_dicts_cons. unfold py_contains, py_getitem, Dict.mem.
  rewrite (get_set_other k extra) by exact Hne.
  rewrite IH by exact Hrest. reflexivity.
Qed.

Lemma diff_ignores_extra_key_witness :
  diff "" (VDict [("a", VInt 1); ("b", VInt 2)])
       (VDict (Dict.set "extra" (VList [VNone]) [("a", VInt 7)])) =
  diff "" (VDict [("a", VInt 1); ("b", VInt 2)]) (VDict [("a", VInt 7)]).
Proof. apply diff_ignores_extra_key. reflexivity. Defined.

(** ** Sequences against sequences *)

Lemma diff_lists_loop_indices (p : string) (want : list value) :
  forall (have done_w done_h : list value),
    List.length done_w = List.length done_h ->
    diff_lists_loop diff p (List.length done_w) want have =
    gen_concat
      (map (diff_index p (done_w ++ want) (done_h ++ have))
           (seq (List.length done_w)
                (Nat.min (List.length want) (List.length have)))).
Proof.
  induction want as [|w want IH]; intros have done_w done_h Hlen; [reflexivity|].
  destruct have as [|h have]; [reflexivity|].
  simpl. f_equal.
  - unfold diff_index.
    rewrite (nth_error_app2 done_w) by lia.
    rewrite (nth_error_app2 done_h) by lia.
    rewrite <- Hlen, !Nat.sub_diag. reflexivity.
  - specialize (IH have (done_w ++ [w]) (done_h ++ [h])).
    rewrite !length_app, <- !app_assoc in IH. simpl in IH.
    rewrite !Nat.add_1_r in IH. apply IH. now rewrite Hlen.
Qed.

Lemma gen_concat_yielded (gs : list Gen) (d : Difference) :
  In d (yielded (gen_concat gs)) -> exists g, In g gs /\ In d (yielded g).
Proof.
  induction gs as [|g gs IH]; simpl; [intros []|].
  intros Hin. apply gen_seq_yielded in Hin as [Hin|Hin].
  - exists g. auto.
  - destruct (IH Hin) as (g' & Hg' & Hd). exists g'. auto.
Qed.

Lemma diff_index_not_at (p : string) (want have : list value) (i : nat)
      (d : Difference) :
  In d (yielded (diff_index p want have i)) ->
  is_different_lengths_at p d = false.
Proof.
  unfold diff_index.
  destruct (nth_error want i) as [w|]; [|intros []].
  destruct (nth_error have i) as [h|]; [|intros []].
  intros Hin. apply diff_under in Hin as (q & Hq & Hext).
  unfold is_different_lengths_at. rewrite Hq.
  apply extends_length in Hext. pose proof (index_path_longer p i) as Hlt.
  destruct (String.eqb q p) eqn:E; [|now rewrite andb_false_r].
  apply String.eqb_eq in E. subst q. lia.
Qed.

(** C5: for sequences of unequal lengths, [diff] first yields the
    "unequal lengths" Difference at the path, carrying both lengths, and
    goes on with the recursion at the indices [0 .. min(len(want),
    len(have)) - 1], in order, and at no other index; no other Difference
    of the outcome is an "unequal lengths" Difference at that path.  An
    exception raised in a recursive call ends the sequence there; when none
    is raised the outcome is that Difference and then all that the recursive
    calls yield.  The "unequal lengths" Difference is the record with the
    message [Unequal lengths: %d != %d], the path and the two lengths as
    its arguments; the recursion at an index is [diff] under the path
    extended by [[i]]. *)
Theorem diff_lists_unequal_lengths :
  forall (p : string) (want have : list value),
    List.length want <> List.length have ->
    diff p (VList want) (VList have) =
      (yield (different_lengths p (List.length want) (List.length have)) ;;
       gen_concat
         (map (diff_index p want have)
              (seq 0 (Nat.min (List.length want) (List.length have)))))
    /\ List.length
         (filter (is_different_lengths_at p)
                 (yielded (diff p (VList want) (VList have)))) = 1
    /\ ((forall i, raised (diff_index p want have i) = None) ->
        diff p (VList want) (VList have) =
        mkGen (different_lengths p (List.length want) (List.length have)
               :: concat (map (fun i => yielded (diff_index p want have i))
                              (seq 0 (Nat.min (List.length want) (List.length have)))))
              None)
    /\ different_lengths p (List.length want) (List.length have) =
       mkDifference "Unequal lengths: %d != %d" (Some p)
         [VScalar (SInt (Z.of_nat (List.length want)));
          VScalar (SInt (Z.of_nat (List.length have)))]
    /\ (forall i want_v have_v,
          nth_error want i = Some want_v ->
          nth_error have i = Some have_v ->
          diff_index p want have i =
          diff (p ++ "[" ++ dec i ++ "]") want_v have_v).
Proof.
  intros p want have Hne.
  assert (Heq : diff p (VList want) (VList have) =
      (yield (different_lengths p (List.length want) (List.length have)) ;;
       gen_concat
         (map (diff_index p want have)
              (seq 0 (Nat.min (List.length want) (List.length have)))))).
  { rewrite diff_list. unfold diff_lists, diff_lists_of. simpl py_len. simpl py_iter.
    cbv beta iota. apply Nat.eqb_neq in Hne. rewrite Hne. simpl negb. cbv iota.
    f_equal. exact (diff_lists_loop_indices p want have [] [] eq_refl). }
  split; [exact Heq|]. split.
  - rewrite Heq, gen_seq_yield. simpl yielded. simpl filter.
    unfold is_different_lengths_at at 1. simpl. rewrite String.eqb_refl. simpl.
    f_equal. apply length_zero_iff_nil.
    match goal with
    | |- filter ?f ?l = [] => destruct (filter f l) as [|d rest] eqn:E
    end; [reflexivity|exfalso].
    assert (Hd : In d (filter (is_different_lengths_at p)
                      (yielded (gen_concat (map (diff_index p want have)
                         (seq 0 (Nat.min (List.length want) (List.length have)))))))).
    { rewrite E. now left. }
    apply filter_In in Hd as [Hin Hat].
    apply gen_concat_yielded in Hin as (g & Hg & Hin).
    apply in_map_iff in Hg as (i & <- & _).
    apply diff_index_not_at in Hin. congruence.
  - split; [|split].
    + intros Hnone. rewrite Heq, gen_concat_no_raise, map_map; [reflexivity|].
      intros g Hg. apply in_map_iff in Hg as (i & <- & _). apply Hnone.
    + reflexivity.
    + intros i want_v have_v Hw Hh. unfold diff_index. now rewrite Hw, Hh.
Qed.

Lemma diff_lists_unequal_lengths_witness :
  List.length
    (filter (is_different_lengths_at "")
            (yielded (diff "" (VList [VInt 1; VInt 2])
                           (VList [VInt 1; VInt 9; VInt 9])))) = 1.
Proof.
  apply (diff_lists_unequal_lengths "" [VInt 1; VInt 2] [VInt 1; VInt 9; VInt 9]).
  simpl. lia.
Defined.

(** The example of the specification: [want = [1, 2]], [have = [1, 9, 9]]. *)
Example diff_lists_example :
  diff "" (VList [VInt 1; VInt 2]) (VList [VInt 1; VInt 9; VInt 9]) =
  mkGen [different_lengths "" 2 3; not_equal "[1]" (VInt 2) (VInt 9)] None.
Proof. reflexivity. Qed.

(** Nested mappings: [want = {"a": {"x": 1}}], [have = {"a": {"x": 2}}]. *)
Example diff_nested_example :
  diff "" (VDict [("a", VDict [("x", VInt 1)])])
       (VDict [("a", VDict [("x", VInt 2)])]) =
  mkGen [not_equal ".a.x" (VInt 1) (VInt 2)] None.
Proof. reflexivity. Qed.

(** Indices are printed in decimal. *)
Example index_path_example : index_path ".spec.ports" 10 = ".spec.ports[10]".
Proof. reflexivity. Qed.

(** ** The path invariant *)

(** C10: every Difference that [diff path want have] yields, also before
    an exception, carries a path that is not null and is [path] followed by
    [.key] and [[index]] segments only. *)
Theorem diff_paths_stay_under_root :
  forall (root : string) (want have : value) (d : Difference),
    In d (yielded (diff root want have)) ->
    exists q, path d = Some q /\ extends root q.
Proof. intros root want have d Hin. exact (diff_under want root have d Hin). Qed.

Lemma diff_paths_stay_under_root_witness :
  exists q,
    path (not_equal ".a[0]" (VInt 1) (VInt 2)) = Some q /\ extends "" q.
Proof.
  apply (diff_paths_stay_under_root ""
           (VDict [("a", VList [VInt 1])]) (VDict [("a", VList [VInt 2])])).
  simpl. left. reflexivity.
Defined.

(** ** Scalars *)

(** C3, as stated, fails: [True] and [1] are scalars of different
    primitive types and [diff] yields nothing for them. *)
Lemma diff_coerces_bool_counterexample :
  primitive_of (SBool true) <> primitive_of (SInt 1) /\
  diff "" (VBool true) (VInt 1) = done.
Proof. split; [discriminate | reflexivity]. Qed.

(** C3, amended: for scalars of different primitive types [diff] yields
    exactly the "not equal" Difference at the path, carrying both values,
    unless one is a boolean and the other the number it stands for ([True]
    and [1], [False] and [0]), for which it yields nothing. *)
Theorem diff_scalars_of_different_types :
  forall (p : string) (want have : scalar),
    primitive_of want <> primitive_of have ->
    diff p (VScalar want) (VScalar have) =
      (if same_int want have
       then done
       else yield (not_equal p (VScalar want) (VScalar have)))
    /\ (same_int want have = true ->
        (primitive_of want = PBoolean /\ primitive_of have = PNumber) \/
        (primitive_of want = PNumber /\ primitive_of have = PBoolean)).
Proof.
  intros p want have Hty. rewrite diff_scalar.
  destruct want as [|x|x|x], have as [|y|y|y]; simpl in *;
    try congruence; unfold same_int; simpl;
    try (split; [reflexivity | discriminate]).
  - split; [now destruct (Z.eqb (Z.b2z x) y) | auto].
  - split; [now destruct (Z.eqb x (Z.b2z y)) | auto].
Qed.

Lemma diff_scalars_of_different_types_witness :
  diff ".spec.replicas" (VScalar (SStr "1")) (VScalar (SInt 1)) =
    (if same_int (SStr "1") (SInt 1)
     then done
     else yield (not_equal ".spec.replicas" (VScalar (SStr "1")) (VScalar (SInt 1))))
  /\ (same_int (SStr "1") (SInt 1) = true ->
      (primitive_of (SStr "1") = PBoolean /\ primitive_of (SInt 1) = PNumber) \/
      (primitive_of (SStr "1") = PNumber /\ primitive_of (SInt 1) = PBoolean)).
Proof.
  apply (diff_scalars_of_different_types ".spec.replicas" (SStr "1") (SInt 1)).
  discriminate.
Defined.

(** ** Shape mismatches *)

(** C1, as stated, fails: a mapping in [want] against a number in [have]
    ends in a [TypeError] and no Difference; so does a sequence. *)
Lemma diff_shape_mismatch_counterexample :
  diff "" (VDict [("replicas", VInt 1)]) (VInt 5) = mkGen [] (Some TypeError) /\
  diff "" (VList [VInt 1]) (VInt 5) = mkGen [] (Some TypeError).
Proof. split; reflexivity. Qed.

Lemma diff_lists_loop_conforms (p : string) (want : list value) :
  (forall v, In v want ->
     forall p' have, conforms v have = true -> raised (diff p' v have) = None) ->
  forall i have,
    conforms_lists conforms want have = true ->
    raised (diff_lists_loop diff p i want have) = None.
Proof.
  induction want as [|w want IH]; intros Hrec i have; [reflexivity|].
  destruct have as [|h have]; [reflexivity|]. simpl.
  intros Hc. apply andb_prop in Hc as [Hw Hrest].
  apply gen_seq_raised_none.
  - apply Hrec; [now left | exact Hw].
  - apply IH; [|exact Hrest]. intros v Hv. apply Hrec. now right.
Qed.

Lemma diff_dicts_conforms (p : string) (want : list (string * value)) :
  (forall k v, In (k, v) want ->
     forall p' have, conforms v have = true -> raised (diff p' v have) = None) ->
  forall have,
    conforms_dicts conforms want have = true ->
    raised (diff_dicts p want (VDict have)) = None.
Proof.
  induction want as [|[k w] want IH]; intros Hrec have; [reflexivity|].
  simpl conforms_dicts. intros Hc. apply andb_prop in Hc as [Hw Hrest].
  rewrite diff_dicts_cons. unfold py_contains, py_getitem, Dict.mem.
  assert (Hnext : raised (diff_dicts p want (VDict have)) = None).
  { apply IH; [|exact Hrest]. intros k' v' Hin. apply (Hrec k' v'). now right. }
  destruct (Dict.get k have) as [h|].
  - apply gen_seq_raised_none; [|exact Hnext].
    apply (Hrec k w); [now left | exact Hw].
  - exact Hnext.
Qed.

Lemma diff_conforms (want : value) :
  forall p have, conforms want have = true -> raised (diff p want have) = None.
Proof.
  induction want as [s|want IH|want IH] using value_ind; intros p have Hc.
  - rewrite diff_scalar. now destruct (negb (py_eq s have)).
  - destruct have as [?|have|?]; try discriminate. simpl in Hc.
    rewrite diff_list. unfold diff_lists, diff_lists_of. simpl py_len.
    simpl py_iter. cbv beta iota. apply gen_seq_raised_none.
    + now destruct (negb _).
    + now apply diff_lists_loop_conforms.
  - destruct have as [?|?|have]; try discriminate. simpl in Hc.
    rewrite diff_dict. now apply diff_dicts_conforms.
Qed.

(** C1, amended: [diff] raises nothing when [have] has the shape that
    [want] expects wherever the traversal goes, and a scalar in [want]
    against any [have] is at most a "not equal" Difference; the lookups in
    [have] are not guarded, and a non-empty mapping or a sequence in [want]
    against a number, a boolean or [None] raises [TypeError] with no
    Difference yielded. *)
Theorem diff_shape_mismatch :
  forall (p : string) (want have : value),
    (conforms want have = true -> raised (diff p want have) = None)
    /\ (forall s k v rest,
          have = VScalar s -> atom s = true -> want = VDict ((k, v) :: rest) ->
          diff p want have = throw TypeError)
    /\ (forall s l,
          have = VScalar s -> atom s = true -> want = VList l ->
          diff p want have = throw TypeError).
Proof.
  intros p want have. split; [apply diff_conforms|]. split.
  - intros s k v rest -> Hs ->. rewrite diff_dict, diff_dicts_cons.
    destruct s; try discriminate; reflexivity.
  - intros s l -> Hs ->. rewrite diff_list. unfold diff_lists, diff_lists_of.
    destruct s; try discriminate; reflexivity.
Qed.

Lemma diff_shape_mismatch_witness :
  raised (diff "" (VDict [("spec", VDict [("ports", VList [VInt 80; VInt 443])])])
               (VDict [("spec", VDict [("ports", VList [VInt 80])])])) = None
  /\ diff "" (VDict [("spec", VInt 1)]) (VScalar SNone) = throw TypeError
  /\ diff "" (VList []) (VScalar (SBool true)) = throw TypeError.
Proof.
  split; [|split].
  - apply (proj1 (diff_shape_mismatch "" _ _)). reflexivity.
  - apply (proj1 (proj2 (diff_shape_mismatch "" (VDict [("spec", VInt 1)]) (VScalar SNone)))
             SNone "spec" (VInt 1) []); reflexivity.
  - apply (proj2 (proj2 (diff_shape_mismatch "" (VList []) (VScalar (SBool true))))
             (SBool true) []); reflexivity.
Defined.

(** ** Object identity *)

(** C7: [from_dict] raises exactly when the [kind] field or the
    [metadata.name] field is absent from the data; when it returns, [kind]
    and [name] are those fields and [namespace] is the [metadata.namespace]
    field, or the string "default" when that field is absent.  [from_dict]
    is a function of the data alone. *)
Theorem from_dict_extraction :
  forall (data : value),
    ((exists e, from_dict data = Raise e) <->
     (field ["kind"] data = None \/ field ["metadata"; "name"] data = None))
    /\ (forall o,
          from_dict data = Ok o ->
          field ["kind"] data = Some (kind o) /\
          field ["metadata"; "name"] data = Some (name o) /\
          match field ["metadata"; "namespace"] data with
          | Some ns => namespace o = ns
          | None => namespace o = VStr "default"
          end).
Proof.
  intros data. unfold from_dict.
  destruct data as [s|l|d]; simpl.
  - split; [|discriminate]. split; eauto.
  - split; [|discriminate]. split; eauto.
  - destruct (Dict.get "kind" d) as [k|]; simpl.
    2:{ split; [|discriminate]. split; eauto. }
    destruct (Dict.get "metadata" d) as [m|]; simpl.
    2:{ split; [|discriminate]. split; eauto. }
    destruct m as [s|l|m]; simpl.
    1,2: split; [|discriminate]; split; eauto.
    destruct (Dict.get "name" m) as [n|]; simpl.
    2:{ split; [|discriminate]. split; eauto. }
    split.
    + split.
      * intros [e He]. destruct (Dict.get "namespace" m); discriminate.
      * intros [Hk|Hn]; discriminate.
    + intros o Ho.
      destruct (Dict.get "namespace" m) as [ns|];
        injection Ho as <-; simpl; auto.
Qed.

Lemma from_dict_extraction_witness :
  field ["kind"] (VDict [("kind", VStr "Service");
                         ("metadata", VDict [("name", VStr "web")])])
    = Some (kind (mkKubeObject (VStr "default") (VStr "Service") (VStr "web")))
  /\ field ["metadata"; "name"]
       (VDict [("kind", VStr "Service");
               ("metadata", VDict [("name", VStr "web")])])
    = Some (name (mkKubeObject (VStr "default") (VStr "Service") (VStr "web")))
  /\ match field ["metadata"; "namespace"]
             (VDict [("kind", VStr "Service");
                     ("metadata", VDict [("name", VStr "web")])])
     with
     | Some ns =>
         namespace (mkKubeObject (VStr "default") (VStr "Service") (VStr "web")) = ns
     | None =>
         namespace (mkKubeObject (VStr "default") (VStr "Service") (VStr "web"))
         = VStr "default"
     end.
Proof.
  apply (proj2 (from_dict_extraction
                  (VDict [("kind", VStr "Service");
                          ("metadata", VDict [("name", VStr "web")])]))).
  reflexivity.
Defined.

(** A declaration without [metadata.name] is refused. *)
Example from_dict_without_name :
  from_dict (VDict [("kind", VStr "Service"); ("metadata", VDict [])])
  = Raise KeyError.
Proof. reflexivity. Qed.

(** ** The aggregating reporter *)

Lemma scalar_key_refl (k : scalar) : key_eqb k k = true.
Proof.
  destruct k as [|b|z|s]; unfold key_eqb, scalar_KeyEq; simpl.
  - reflexivity.
  - apply Bool.eqb_reflx.
  - apply Z.eqb_refl.
  - apply String.eqb_refl.
Qed.

Section DictFacts.
Context {K V : Type} `{KeyEq K}.
Hypothesis key_refl : forall k : K, key_eqb k k = true.

Lemma get_set_same (k : K) (v : V) (d : list (K * V)) :
  Dict.get k (Dict.set k v d) = Some v.
Proof.
  induction d as [|[k' v'] d IH]; simpl.
  - now rewrite key_refl.
  - destruct (key_eqb k k') eqn:E; simpl; rewrite E; [reflexivity | exact IH].
Qed.

Lemma set_set (k : K) (v v' : V) (d : list (K * V)) :
  Dict.set k v (Dict.set k v' d) = Dict.set k v d.
Proof.
  induction d as [|[k' v''] d IH]; simpl.
  - now rewrite key_refl.
  - destruct (key_eqb k k') eqn:E; simpl; rewrite E; [reflexivity|].
    now rewrite IH.
Qed.

(** A lookup after [d[k] = v] finds what it found before, or finds [v]
    in the place of what [d[k]] was. *)
Lemma get_set_cases (k k2 : K) (v old : V) (d : list (K * V)) :
  Dict.get k2 d = Some old ->
  Dict.get k2 (Dict.set k v d) = Some old \/
  (Dict.get k2 (Dict.set k v d) = Some v /\ Dict.get k d = Some old).
Proof.
  induction d as [|[k' v'] d IH]; simpl; [discriminate|].
  destruct (key_eqb k k') eqn:Ek; simpl.
  - destruct (key_eqb k2 k'); auto.
  - destruct (key_eqb k2 k'); auto.
Qed.

Lemma setdefault_get (k : K) (default : V) (d : list (K * V)) :
  Dict.get k (fst (Dict.setdefault k default d)) =
  Some (snd (Dict.setdefault k default d)).
Proof.
  unfold Dict.setdefault. destruct (Dict.get k d) eqn:E; simpl.
  - exact E.
  - apply get_set_same.
Qed.

Lemma setdefault_keeps (k k2 : K) (default old : V) (d : list (K * V)) :
  Dict.get k2 d = Some old ->
  Dict.get k2 (fst (Dict.setdefault k default d)) = Some old.
Proof.
  unfold Dict.setdefault. intros Hold.
  destruct (Dict.get k d) eqn:E; simpl; [exact Hold|].
  destruct (get_set_cases k k2 default old d Hold) as [Hsame|[_ Hk]];
    [exact Hsame | congruence].
Qed.

Lemma setdefault_twice (k : K) (default : V) (d : list (K * V)) :
  Dict.setdefault k default (fst (Dict.setdefault k default d)) =
  Dict.setdefault k default d.
Proof.
  unfold Dict.setdefault at 2 3. destruct (Dict.get k d) eqn:E; simpl.
  - unfold Dict.setdefault. now rewrite E.
  - unfold Dict.setdefault. now rewrite get_set_same.
Qed.
End DictFacts.

Lemma with_data_twice (d d' : JSONPrinter.by_kind) (self : JSONPrinter.t) :
  JSONPrinter.with_data d (JSONPrinter.with_data d' self) =
  JSONPrinter.with_data d self.
Proof. reflexivity. Qed.

(** [add] for an object whose kind and name are hashable. *)
Lemma add_hashable (kube_obj : KubeObject) (k n : scalar) (self : JSONPrinter.t) :
  kind kube_obj = VScalar k -> name kube_obj = VScalar n ->
  JSONPrinter.add kube_obj self =
  (JSONPrinter.with_data
     (Dict.set k
        (fst (Dict.setdefault n []
                (snd (Dict.setdefault k [] (JSONPrinter.data self)))))
        (fst (Dict.setdefault k [] (JSONPrinter.data self))))
     self,
   Ok tt).
Proof.
  intros Hk Hn. unfold JSONPrinter.add. rewrite Hk, Hn. simpl.
  destruct (Dict.setdefault k [] (JSONPrinter.data self)) as [data1 names].
  simpl. now destruct (Dict.setdefault n [] names).
Qed.

Lemma add_twice (kube_obj : KubeObject) (k n : scalar) (self : JSONPrinter.t) :
  kind kube_obj = VScalar k -> name kube_obj = VScalar n ->
  JSONPrinter.add kube_obj (fst (JSONPrinter.add kube_obj self)) =
  JSONPrinter.add kube_obj self.
Proof.
  intros Hk Hn. rewrite (add_hashable kube_obj k n self Hk Hn). simpl fst.
  rewrite (add_hashable kube_obj k n _ Hk Hn). simpl JSONPrinter.data.
  set (outer := Dict.setdefault k [] (JSONPrinter.data self)).
  set (inner := Dict.setdefault n [] (snd outer)).
  assert (Houter : Dict.setdefault k [] (Dict.set k (fst inner) (fst outer)) =
                   (Dict.set k (fst inner) (fst outer), fst inner)).
  { unfold Dict.setdefault at 1.
    now rewrite (get_set_same scalar_key_refl). }
  rewrite Houter. simpl fst. simpl snd.
  unfold inner at 1. rewrite (setdefault_twice scalar_key_refl). fold inner.
  rewrite (set_set scalar_key_refl). now rewrite with_data_twice.
Qed.

Lemma add_keeps_records (kube_obj : KubeObject) (k n : scalar)
      (self : JSONPrinter.t) (k' n' : scalar) (r : list JSONPrinter.entry) :
  kind kube_obj = VScalar k -> name kube_obj = VScalar n ->
  JSONPrinter.record_of k' n' self = Some r ->
  JSONPrinter.record_of k' n' (fst (JSONPrinter.add kube_obj self)) = Some r.
Proof.
  intros Hk Hn. rewrite (add_hashable kube_obj k n self Hk Hn). simpl fst.
  unfold JSONPrinter.record_of. simpl JSONPrinter.data.
  destruct (Dict.get k' (JSONPrinter.data self)) as [names'|] eqn:Hnames;
    [|discriminate].
  intros Hr.
  pose proof (setdefault_keeps k k' [] names' (JSONPrinter.data self) Hnames)
    as Hkept.
  pose proof (setdefault_get scalar_key_refl k [] (JSONPrinter.data self))
    as Hmine.
  set (outer := Dict.setdefault k [] (JSONPrinter.data self)) in *.
  set (inner := Dict.setdefault n [] (snd outer)).
  destruct (get_set_cases k k' (fst inner) names' (fst outer) Hkept)
    as [Hsame|[Hnew Hold]].
  - replace (Dict.get k' (Dict.set k (fst inner) (fst outer)))
      with (Some names') by (symmetry; exact Hsame).
    exact Hr.
  - replace (Dict.get k' (Dict.set k (fst inner) (fst outer)))
      with (Some (fst inner)) by (symmetry; exact Hnew).
    assert (Hold' : snd outer = names') by congruence.
    unfold inner. rewrite Hold'. now apply setdefault_keeps.
Qed.

Lemma add_add_diff_fresh (kube_obj : KubeObject) (k n : scalar)
      (difference : Difference) :
  kind kube_obj = VScalar k -> name kube_obj = VScalar n ->
  (JSONPrinter.add kube_obj >>
   JSONPrinter.add kube_obj >>
   JSONPrinter.diff kube_obj difference)%call JSONPrinter.init =
  (JSONPrinter.mk
     [(k, [(n, [path_value (path difference) :: args difference])])] [],
   Ok tt).
Proof.
  intros Hk Hn.
  assert (Hfirst : JSONPrinter.add kube_obj JSONPrinter.init =
                   (JSONPrinter.mk [(k, [(n, [])])] [], Ok tt)).
  { rewrite (add_hashable kube_obj k n _ Hk Hn). simpl.
    now rewrite scalar_key_refl. }
  unfold bind at 1. rewrite Hfirst.
  unfold bind. replace (JSONPrinter.mk [(k, [(n, [])])] [])
    with (fst (JSONPrinter.add kube_obj JSONPrinter.init))
    by now rewrite Hfirst.
  rewrite (add_twice kube_obj k n _ Hk Hn), Hfirst.
  unfold JSONPrinter.diff. rewrite Hk, Hn. simpl.
  rewrite !scalar_key_refl. simpl. rewrite !scalar_key_refl. reflexivity.
Qed.

(** ** The orchestrator after a failed fetch *)

Section FetchFailure.
Context {P : Type} `{Printer P}.
Variable yaml_load : string -> value.
Variable get_from_cluster : KubeObject -> fetch_result.
Variable iter_files : list string -> list string.
Variable splitext_extension : string -> string.

(** After a failed fetch [check_file] has made one call of [diff] on the
    printer, with the synthetic Difference, and returns [None]; the
    engine is not run. *)
Lemma check_file_fetch_failure (path : string) (kube_obj : KubeObject)
      (output : string) (p p1 p2 : P) :
  from_dict (yaml_load path) = Ok kube_obj ->
  get_from_cluster kube_obj = CalledProcessError output ->
  printer_add kube_obj p = (p1, Ok tt) ->
  printer_diff kube_obj (broken_cluster output) p1 = (p2, Ok tt) ->
  check_file yaml_load get_from_cluster path p = (p2, Ok VNone).
Proof.
  intros Hobj Hfetch Hadd Hdiff. unfold check_file, bind, lift.
  rewrite Hobj, Hadd, Hfetch, Hdiff. reflexivity.
Qed.

(** [differences += None] ends the batch: the files after [path] are not
    checked and [finish] is not called. *)
Lemma check_files_none (paths : list string) (path : string)
      (files : list string) (p p' : P) :
  iter_files paths = path :: files ->
  splitext_extension path = ".yaml" ->
  check_file yaml_load get_from_cluster path p = (p', Ok VNone) ->
  check_files yaml_load get_from_cluster iter_files splitext_extension paths p =
  (p', Raise TypeError).
Proof.
  intros Hfiles Hext Hnone. unfold check_files, bind at 1. rewrite Hfiles.
  simpl check_files_loop. rewrite Hext. simpl. unfold bind at 1.
  now rewrite Hnone.
Qed.
End FetchFailure.

(** C2 on [a.yaml] and [b.yaml] with the fetch of the first object
    failing: [check_file] records the one synthetic Difference with a null
    path for it and returns [None]; [check_files] then raises [TypeError] at
    [differences += None], with [b.yaml] not checked and [finish] not
    called, although [b.yaml] alone is checked without differences. *)
Theorem check_files_stops_at_fetch_failure :
  check_file two_services cluster_without_a "a.yaml" JSONPrinter.init =
    (JSONPrinter.mk
       [(SStr "Service",
         [(SStr "a", [[VNone; VStr "Error from server (NotFound)"]])])] [],
     Ok VNone)
  /\ check_files two_services cluster_without_a plain_files yaml_extension
       ["a.yaml"; "b.yaml"] JSONPrinter.init =
    (JSONPrinter.mk
       [(SStr "Service",
         [(SStr "a", [[VNone; VStr "Error from server (NotFound)"]])])] [],
     Raise TypeError)
  /\ check_files two_services cluster_without_a plain_files yaml_extension
       ["b.yaml"] JSONPrinter.init =
    (JSONPrinter.mk
       [(SStr "Service", [(SStr "b", [])])]
       [[(SStr "Service", [(SStr "b", [])])]],
     Ok false).
Proof. repeat split; reflexivity. Qed.

(** * Further properties of the engine *)

(** ** Generators *)

Lemma gen_seq_done_iff (g1 g2 : Gen) :
  g1 ;; g2 = done <-> g1 = done /\ g2 = done.
Proof.
  destruct g1 as [y1 [e1|]], g2 as [y2 r2]; unfold gen_seq, done; simpl.
  - split; [discriminate | intros [H _]; discriminate].
  - split.
    + intros H. injection H as Hy Hr.
      apply app_eq_nil in Hy as [-> ->]. now subst.
    + intros [H1 H2]. injection H1 as ->. injection H2 as -> ->. reflexivity.
Qed.

Lemma gen_seq_nothing (g1 g2 : Gen) :
  raised g1 = None ->
  yielded (g1 ;; g2) = [] -> yielded g1 = [] /\ yielded g2 = [].
Proof.
  unfold gen_seq. intros ->. simpl. apply app_eq_nil.
Qed.

Lemma gen_seq_raised (g1 g2 : Gen) (e : exn) :
  raised (g1 ;; g2) = Some e -> raised g1 = Some e \/ raised g2 = Some e.
Proof.
  unfold gen_seq. destruct (raised g1) eqn:E; simpl; intros H.
  - left. congruence.
  - now right.
Qed.

Lemma gen_seq_length (g1 g2 : Gen) :
  List.length (yielded (g1 ;; g2)) <=
  List.length (yielded g1) + List.length (yielded g2).
Proof.
  unfold gen_seq. destruct (raised g1); simpl; [lia|].
  rewrite length_app. lia.
Qed.

Lemma py_eq_refl (s : scalar) : py_eq s (VScalar s) = true.
Proof. exact (scalar_key_refl s). Qed.

(** ** Coverage *)

Lemma covers_lists_length (l h : list value) :
  covers_lists covers l h = true -> List.length l = List.length h.
Proof.
  revert h. induction l as [|w l IH]; intros [|v h]; simpl; try discriminate.
  - reflexivity.
  - intros H. apply andb_prop in H as [_ H]. f_equal. now apply IH.
Qed.

Lemma diff_lists_loop_covered (p : string) (want : list value) :
  (forall v, In v want ->
     forall p' have, covers v have = true -> diff p' v have = done) ->
  forall i have,
    covers_lists covers want have = true ->
    diff_lists_loop diff p i want have = done.
Proof.
  induction want as [|w want IH]; intros Hrec i [|h have]; simpl;
    try discriminate; [reflexivity|].
  intros H. apply andb_prop in H as [Hw Hrest].
  apply gen_seq_done_iff. split.
  - apply Hrec; [now left | exact Hw].
  - apply IH; [|exact Hrest]. intros v Hv. apply Hrec. now right.
Qed.

Lemma diff_dicts_covered (p : string) (want : list (string * value)) :
  (forall k v, In (k, v) want ->
     forall p' have, covers v have = true -> diff p' v have = done) ->
  forall have,
    covers_dicts covers want have = true ->
    diff_dicts p want (VDict have) = done.
Proof.
  induction want as [|[k w] want IH]; intros Hrec have; [reflexivity|].
  simpl covers_dicts. intros H. apply andb_prop in H as [Hw Hrest].
  rewrite diff_dicts_cons. unfold py_contains, py_getitem, Dict.mem.
  destruct (Dict.get k have) as [h|]; [|discriminate].
  apply gen_seq_done_iff. split.
  - apply (Hrec k w); [now left | exact Hw].
  - apply IH; [|exact Hrest]. intros k' v' Hin. apply (Hrec k' v'). now right.
Qed.

Lemma covers_sound (want : value) :
  forall p have, covers want have = true -> diff p want have = done.
Proof.
  induction want as [s|want IH|want IH] using value_ind; intros p have Hc.
  - rewrite diff_scalar. simpl in Hc. now rewrite Hc.
  - destruct have as [?|have|?]; try discriminate. simpl in Hc.
    rewrite diff_list. unfold diff_lists, diff_lists_of. simpl py_len.
    simpl py_iter. cbv beta iota.
    rewrite (covers_lists_length _ _ Hc), Nat.eqb_refl. simpl negb. cbv iota.
    rewrite gen_seq_done_l. now apply diff_lists_loop_covered.
  - destruct have as [?|?|have]; try discriminate. simpl in Hc.
    rewrite diff_dict. now apply diff_dicts_covered.
Qed.

Lemma diff_lists_loop_complete (p : string) (want : list value) :
  (forall v, In v want ->
     forall p' have, conforms v have = true ->
                     yielded (diff p' v have) = [] -> covers v have = true) ->
  forall i have,
    List.length want = List.length have ->
    conforms_lists conforms want have = true ->
    yielded (diff_lists_loop diff p i want have) = [] ->
    covers_lists covers want have = true.
Proof.
  induction want as [|w want IH]; intros Hrec i [|h have]; simpl;
    try discriminate; [reflexivity|].
  intros Hlen Hc Hnone. apply andb_prop in Hc as [Hw Hrest].
  apply gen_seq_nothing in Hnone as [H1 H2]; [|now apply diff_conforms].
  apply andb_true_intro. split.
  - apply (Hrec w (or_introl eq_refl) _ _ Hw H1).
  - apply (IH (fun v Hv => Hrec v (or_intror Hv)) (S i) have); auto.
Qed.

Lemma diff_dicts_complete (p : string) (want : list (string * value)) :
  (forall k v, In (k, v) want ->
     forall p' have, conforms v have = true ->
                     yielded (diff p' v have) = [] -> covers v have = true) ->
  forall have,
    conforms_dicts conforms want have = true ->
    yielded (diff_dicts p want (VDict have)) = [] ->
    covers_dicts covers want have = true.
Proof.
  induction want as [|[k w] want IH]; intros Hrec have; [reflexivity|].
  simpl conforms_dicts. simpl covers_dicts. intros Hc.
  apply andb_prop in Hc as [Hw Hrest].
  rewrite diff_dicts_cons. unfold py_contains, py_getitem, Dict.mem.
  destruct (Dict.get k have) as [h|]; [|discriminate].
  intros Hnone.
  apply gen_seq_nothing in Hnone as [H1 H2]; [|now apply diff_conforms].
  apply andb_true_intro. split.
  - apply (Hrec k w (or_introl eq_refl) _ _ Hw H1).
  - apply (IH (fun k' v' Hin => Hrec k' v' (or_intror Hin)) have); auto.
Qed.

Lemma covers_complete (want : value) :
  forall p have,
    conforms want have = true ->
    yielded (diff p want have) = [] -> covers want have = true.
Proof.
  induction want as [s|want IH|want IH] using value_ind; intros p have Hc.
  - rewrite diff_scalar. simpl. destruct (py_eq s have); [reflexivity|].
    discriminate.
  - destruct have as [?|have|?]; try discriminate. simpl in Hc.
    rewrite diff_list. unfold diff_lists, diff_lists_of. simpl py_len.
    simpl py_iter. cbv beta iota. intros Hnone.
    apply gen_seq_nothing in Hnone as [H1 H2]; [|now destruct (negb _)].
    destruct (Nat.eqb (List.length want) (List.length have)) eqn:E;
      [|discriminate].
    apply Nat.eqb_eq in E. simpl.
    now apply (diff_lists_loop_complete p want IH 0 have).
  - destruct have as [?|?|have]; try discriminate. simpl in Hc.
    rewrite diff_dict. simpl. now apply diff_dicts_complete.
Qed.

(** X1: [diff] reports nothing, and raises nothing, whenever [have]
    covers [want]; and when [have] has the shape that [want] expects, it
    reports nothing only then. *)
Theorem diff_nothing_iff_covers :
  forall (p : string) (want have : value),
    (covers want have = true -> diff p want have = done)
    /\ (conforms want have = true ->
        (yielded (diff p want have) = [] <-> covers want have = true)).
Proof.
  intros p want have. split; [apply covers_sound|].
  intros Hc. split.
  - now apply covers_complete.
  - intros Hcov. now rewrite (covers_sound want p have Hcov).
Qed.

Lemma diff_nothing_iff_covers_witness :
  diff "" (VDict [("spec", VDict [("ports", VList [VInt 80])])])
       (VDict [("status", VStr "Running");
               ("spec", VDict [("ports", VList [VInt 80]); ("type", VStr "NodePort")])])
  = done.
Proof.
  apply (proj1 (diff_nothing_iff_covers "" _ _)). reflexivity.
Defined.

(** ** A tree against itself *)

Lemma mem_of_binding (k : string) (w : value) (d : list (string * value)) :
  In (k, w) d -> Dict.mem k d = true.
Proof.
  unfold Dict.mem. induction d as [|[k' v'] d IH]; simpl; [intros []|].
  rewrite string_key_eqb. intros [Heq|Hin].
  - injection Heq as -> ->. now rewrite String.eqb_refl.
  - destruct (String.eqb k k'); [reflexivity | now apply IH].
Qed.

Lemma unique_keys_get (d : list (string * value)) (k : string) (w : value) :
  unique_keys well_formed d = true ->
  In (k, w) d -> Dict.get k d = Some w /\ well_formed w = true.
Proof.
  induction d as [|[k' v'] d IH]; simpl; [intros _ []|].
  intros Hu. apply andb_prop in Hu as [Hu Hrest].
  apply andb_prop in Hu as [Hfresh Hv']. rewrite string_key_eqb.
  intros [Heq|Hin].
  - injection Heq as -> ->. now rewrite String.eqb_refl.
  - destruct (String.eqb k k') eqn:E.
    + apply String.eqb_eq in E. subst k'.
      rewrite (mem_of_binding k w d Hin) in Hfresh. discriminate.
    + now apply IH.
Qed.

Lemma covers_lists_same (l : list value) :
  (forall v, In v l -> covers v v = true) -> covers_lists covers l l = true.
Proof.
  induction l as [|v l IH]; intros Hrec; [reflexivity|]. simpl.
  rewrite (Hrec v (or_introl eq_refl)). simpl.
  apply IH. intros v' Hv'. apply Hrec. now right.
Qed.

Lemma covers_dicts_bindings (d : list (string * value)) (part : list (string * value)) :
  (forall k w, In (k, w) part -> Dict.get k d = Some w /\ covers w w = true) ->
  covers_dicts covers part d = true.
Proof.
  induction part as [|[k w] part IH]; intros Hrec; [reflexivity|]. simpl.
  destruct (Hrec k w (or_introl eq_refl)) as [-> ->]. simpl.
  apply IH. intros k' w' Hin. apply Hrec. now right.
Qed.

Lemma covers_same (v : value) : well_formed v = true -> covers v v = true.
Proof.
  induction v as [s|l IH|d IH] using value_ind; simpl; intros Hwf.
  - apply py_eq_refl.
  - apply covers_lists_same. intros v Hv. apply IH; [exact Hv|].
    rewrite forallb_forall in Hwf. now apply Hwf.
  - apply covers_dicts_bindings. intros k w Hin.
    destruct (unique_keys_get d k w Hwf Hin) as [Hget Hw].
    split; [exact Hget|]. now apply (IH k w).
Qed.

(** X2: a tree of [None], booleans, integers and strings, sequences and
    mappings that bind each key once has no difference with itself, under
    any path.  (A float is outside these trees: [NaN] is not equal to
    itself, and [diff] reports it against itself.) *)
Theorem diff_same_tree :
  forall (p : string) (v : value),
    well_formed v = true -> diff p v v = done.
Proof.
  intros p v Hwf. apply covers_sound. now apply covers_same.
Qed.

Lemma diff_same_tree_witness :
  diff ".items[3]"
       (VDict [("kind", VStr "Service");
               ("spec", VDict [("ports", VList [VInt 80; VBool true; VNone])])])
       (VDict [("kind", VStr "Service");
               ("spec", VDict [("ports", VList [VInt 80; VBool true; VNone])])])
  = done.
Proof. apply diff_same_tree. reflexivity. Defined.

(** ** The root path *)

Lemma append_assoc (a b c : string) : ((a ++ b) ++ c = a ++ (b ++ c))%string.
Proof. induction a as [|x a IH]; simpl; [reflexivity | now rewrite IH]. Qed.

Lemma key_path_append (prefix p k : string) :
  key_path (prefix ++ p) k = (prefix ++ key_path p k)%string.
Proof. unfold key_path. apply append_assoc. Qed.

Lemma index_path_append (prefix p : string) (i : nat) :
  index_path (prefix ++ p) i = (prefix ++ index_path p i)%string.
Proof. unfold index_path. apply append_assoc. Qed.

Lemma relocate_seq (prefix : string) (g1 g2 : Gen) :
  relocate prefix (g1 ;; g2) = relocate prefix g1 ;; relocate prefix g2.
Proof.
  unfold relocate, gen_seq. simpl. destruct (raised g1) eqn:E; simpl.
  - now rewrite E.
  - now rewrite map_app.
Qed.

Lemma diff_lists_loop_relocate (prefix : string) (want : list value) :
  (forall v, In v want ->
     forall p have, diff (prefix ++ p) v have = relocate prefix (diff p v have)) ->
  forall p i have,
    diff_lists_loop diff (prefix ++ p) i want have =
    relocate prefix (diff_lists_loop diff p i want have).
Proof.
  induction want as [|w want IH]; intros Hrec p i [|h have]; simpl;
    try reflexivity.
  rewrite relocate_seq, index_path_append, (Hrec w (or_introl eq_refl)).
  f_equal. apply IH. intros v Hv. apply Hrec. now right.
Qed.

Lemma diff_dicts_relocate (prefix : string) (want : list (string * value)) :
  (forall k v, In (k, v) want ->
     forall p have, diff (prefix ++ p) v have = relocate prefix (diff p v have)) ->
  forall p have,
    diff_dicts (prefix ++ p) want have = relocate prefix (diff_dicts p want have).
Proof.
  induction want as [|[k w] want IH]; intros Hrec p have; [reflexivity|].
  rewrite !diff_dicts_cons.
  assert (Hrest : diff_dicts (prefix ++ p) want have =
                  relocate prefix (diff_dicts p want have)).
  { apply IH. intros k' v' Hin. apply (Hrec k' v'). now right. }
  destruct (py_contains k have) as [[|]|e]; [| |reflexivity].
  - destruct (py_getitem have k) as [h|e]; [|reflexivity].
    rewrite relocate_seq, key_path_append, (Hrec k w (or_introl eq_refl)).
    now rewrite Hrest.
  - rewrite relocate_seq, Hrest. reflexivity.
Qed.

Lemma diff_relocate (prefix : string) (want : value) :
  forall p have, diff (prefix ++ p) want have = relocate prefix (diff p want have).
Proof.
  induction want as [s|want IH|want IH] using value_ind; intros p have.
  - rewrite !diff_scalar. now destruct (negb (py_eq s have)).
  - rewrite !diff_list. unfold diff_lists, diff_lists_of.
    destruct (py_len have) as [n|e]; [|reflexivity].
    rewrite relocate_seq. f_equal.
    + now destruct (negb _).
    + destruct (py_iter have) as [items|e]; [|reflexivity].
      now apply diff_lists_loop_relocate.
  - rewrite !diff_dict. now apply diff_dicts_relocate.
Qed.

(** X3: the path given to [diff] is only a prefix of the paths it
    reports: under the path [prefix ++ p] the outcome is the outcome under
    [p] with [prefix] put before every path; in particular the outcome
    under any path is the outcome under the empty path, relocated. *)
Theorem diff_under_prefix :
  forall (prefix p : string) (want have : value),
    diff (prefix ++ p) want have = relocate prefix (diff p want have)
    /\ diff prefix want have = relocate prefix (diff "" want have).
Proof.
  intros prefix p want have. split; [apply diff_relocate|].
  rewrite <- (diff_relocate prefix want "" have). f_equal.
  clear. induction prefix as [|c prefix IH]; simpl; [reflexivity|].
  f_equal. exact IH.
Qed.

(** ** How much is reported *)

Lemma size_positive (v : value) : 1 <= size v.
Proof. destruct v; simpl; lia. Qed.

Lemma diff_lists_loop_bounded (p : string) (want : list value) :
  (forall v, In v want ->
     forall p' have, List.length (yielded (diff p' v have)) <= size v) ->
  forall i have,
    List.length (yielded (diff_lists_loop diff p i want have)) <=
    size_list size want.
Proof.
  induction want as [|w want IH]; intros Hrec i [|h have]; simpl; try lia.
  pose proof (gen_seq_length (diff (index_path p i) w h)
                (diff_lists_loop diff p (S i) want have)) as Hseq.
  pose proof (Hrec w (or_introl eq_refl) (index_path p i) h) as Hw.
  pose proof (IH (fun v Hv => Hrec v (or_intror Hv)) (S i) have) as Hrest.
  lia.
Qed.

Lemma diff_dicts_bounded (p : string) (want : list (string * value)) :
  (forall k v, In (k, v) want ->
     forall p' have, List.length (yielded (diff p' v have)) <= size v) ->
  forall have,
    List.length (yielded (diff_dicts p want have)) <= size_dict size want.
Proof.
  induction want as [|[k w] want IH]; intros Hrec have; [simpl; lia|].
  rewrite diff_dicts_cons. simpl size_dict.
  pose proof (IH (fun k' v' Hin => Hrec k' v' (or_intror Hin)) have) as Hrest.
  pose proof (size_positive w) as Hpos.
  destruct (py_contains k have) as [[|]|e]; [| |simpl; lia].
  - destruct (py_getitem have k) as [h|e]; [|simpl; lia].
    pose proof (gen_seq_length (diff (key_path p k) w h)
                  (diff_dicts p want have)) as Hseq.
    pose proof (Hrec k w (or_introl eq_refl) (key_path p k) h) as Hw.
    lia.
  - rewrite gen_seq_yield. simpl. lia.
Qed.

(** X4: whatever the live tree is, [diff] yields at most as many
    Differences as the declared tree has scalars, sequences and
    mappings. *)
Theorem diff_bounded_by_want :
  forall (p : string) (want have : value),
    List.length (yielded (diff p want have)) <= size want.
Proof.
  intros p want. revert p.
  induction want as [s|want IH|want IH] using value_ind; intros p have.
  - rewrite diff_scalar. destruct (negb (py_eq s have)); simpl; lia.
  - rewrite diff_list. unfold diff_lists, diff_lists_of.
    destruct (py_len have) as [n|e]; [|simpl; lia].
    match goal with |- List.length (yielded (?g1 ;; ?g2)) <= _ =>
      pose proof (gen_seq_length g1 g2) as Hseq;
      assert (H1 : List.length (yielded g1) <= 1) by (destruct (negb _); simpl; lia);
      assert (H2 : List.length (yielded g2) <= size_list size want)
    end.
    { destruct (py_iter have) as [items|e]; [|simpl; lia].
      now apply diff_lists_loop_bounded. }
    simpl size. lia.
  - rewrite diff_dict. pose proof (diff_dicts_bounded p want IH have).
    simpl size. lia.
Qed.

(** ** What is reported *)

Lemma diff_lists_loop_genuine (p : string) (want : list value) :
  (forall v, In v want ->
     forall p' have d, In d (yielded (diff p' v have)) -> genuine d) ->
  forall i have d,
    In d (yielded (diff_lists_loop diff p i want have)) -> genuine d.
Proof.
  induction want as [|w want IH]; intros Hrec i [|h have] d; simpl;
    try (intros []).
  intros Hin. apply gen_seq_yielded in Hin as [Hin|Hin].
  - now apply (Hrec w (or_introl eq_refl) _ _ _ Hin).
  - now apply (IH (fun v Hv => Hrec v (or_intror Hv)) _ _ _ Hin).
Qed.

Lemma diff_dicts_genuine (p : string) (want : list (string * value)) :
  (forall k v, In (k, v) want ->
     forall p' have d, In d (yielded (diff p' v have)) -> genuine d) ->
  forall have d, In d (yielded (diff_dicts p want have)) -> genuine d.
Proof.
  induction want as [|[k w] want IH]; intros Hrec have d; [intros []|].
  rewrite diff_dicts_cons.
  pose proof (IH (fun k' v' Hin => Hrec k' v' (or_intror Hin)) have d) as Hrest.
  destruct (py_contains k have) as [[|]|e]; [| |intros []].
  - destruct (py_getitem have k) as [h|e]; [|intros []].
    intros Hin. apply gen_seq_yielded in Hin as [Hin|Hin]; [|auto].
    now apply (Hrec k w (or_introl eq_refl) _ _ _ Hin).
  - intros Hin. apply gen_seq_yielded in Hin as [Hin|Hin]; [|auto].
    destruct Hin as [<-|[]]. constructor.
Qed.

Lemma diff_yields_one_of_three (want : value) :
  forall p have d, In d (yielded (diff p want have)) -> genuine d.
Proof.
  induction want as [s|want IH|want IH] using value_ind; intros p have d.
  - rewrite diff_scalar. destruct (py_eq s have) eqn:E; simpl; [intros []|].
    intros [<-|[]]. now constructor.
  - rewrite diff_list. unfold diff_lists, diff_lists_of.
    destruct (py_len have) as [n|e]; [|intros []].
    intros Hin. apply gen_seq_yielded in Hin as [Hin|Hin].
    + destruct (Nat.eqb (List.length want) n) eqn:E; simpl in Hin;
        [destruct Hin|].
      destruct Hin as [<-|[]]. constructor. now apply Nat.eqb_neq.
    + destruct (py_iter have) as [items|e]; [|destruct Hin].
      eapply diff_lists_loop_genuine; eauto.
  - rewrite diff_dict. now apply diff_dicts_genuine.
Qed.

(** X5: every Difference that [diff] yields is genuine: an "unequal
    lengths" Difference carries two lengths that differ, a "not equal"
    Difference carries a scalar of [want] and a value that is not equal to
    it, and the only other Difference is "missing item"; the Difference of
    a failed fetch is never yielded. *)
Theorem diff_yields_genuine :
  forall (p : string) (want have : value) (d : Difference),
    In d (yielded (diff p want have)) ->
    genuine d /\ (forall output, d <> broken_cluster output).
Proof.
  intros p want have d Hin.
  pose proof (diff_yields_one_of_three want p have d Hin) as Hg.
  split; [exact Hg|].
  intros output. destruct Hg; discriminate.
Qed.

Lemma diff_yields_genuine_witness :
  genuine (different_lengths ".spec.ports" 2 1)
  /\ (forall output, different_lengths ".spec.ports" 2 1 <> broken_cluster output).
Proof.
  apply (diff_yields_genuine ""
           (VDict [("spec", VDict [("ports", VList [VInt 80; VInt 443])])])
           (VDict [("spec", VDict [("ports", VList [VInt 80])])])).
  simpl. left. reflexivity.
Defined.

(** ** What is raised *)

Lemma py_len_raises (have : value) (e : exn) :
  py_len have = Raise e -> e = TypeError.
Proof. destruct have as [[| | |]| |]; simpl; congruence. Qed.

Lemma py_iter_raises (have : value) (e : exn) :
  py_iter have = Raise e -> e = TypeError.
Proof. destruct have as [[| | |]| |]; simpl; congruence. Qed.

Lemma py_contains_raises (k : string) (have : value) (e : exn) :
  py_contains k have = Raise e -> e = TypeError.
Proof. destruct have as [[| | |]| |]; simpl; congruence. Qed.

(** [have[k]] after [k in have] held: the key is there when [have] is a
    mapping, so that only the subscript of a string or a sequence fails. *)
Lemma py_getitem_guarded (k : string) (have : value) (e : exn) :
  py_contains k have = Ok true -> py_getitem have k = Raise e -> e = TypeError.
Proof.
  destruct have as [s|l|h]; simpl; try congruence.
  unfold Dict.mem. destruct (Dict.get k h); congruence.
Qed.

Lemma diff_lists_loop_raises (p : string) (want : list value) :
  (forall v, In v want ->
     forall p' have e, raised (diff p' v have) = Some e -> e = TypeError) ->
  forall i have e,
    raised (diff_lists_loop diff p i want have) = Some e -> e = TypeError.
Proof.
  induction want as [|w want IH]; intros Hrec i [|h have] e; simpl;
    try discriminate.
  intros Hr. apply gen_seq_raised in Hr as [Hr|Hr].
  - now apply (Hrec w (or_introl eq_refl) _ _ _ Hr).
  - now apply (IH (fun v Hv => Hrec v (or_intror Hv)) _ _ _ Hr).
Qed.

Lemma diff_dicts_raises (p : string) (want : list (string * value)) :
  (forall k v, In (k, v) want ->
     forall p' have e, raised (diff p' v have) = Some e -> e = TypeError) ->
  forall have e, raised (diff_dicts p want have) = Some e -> e = TypeError.
Proof.
  induction want as [|[k w] want IH]; intros Hrec have e; [discriminate|].
  rewrite diff_dicts_cons.
  pose proof (IH (fun k' v' Hin => Hrec k' v' (or_intror Hin)) have e) as Hrest.
  destruct (py_contains k have) as [[|]|e'] eqn:Hin.
  - destruct (py_getitem have k) as [h|e''] eqn:Hget.
    + intros Hr. apply gen_seq_raised in Hr as [Hr|Hr]; [|auto].
      now apply (Hrec k w (or_introl eq_refl) _ _ _ Hr).
    + simpl. intros Hr. injection Hr as <-.
      now apply (py_getitem_guarded k have).
  - intros Hr. apply gen_seq_raised in Hr as [Hr|Hr]; [discriminate|auto].
  - simpl. intros Hr. injection Hr as <-. now apply (py_contains_raises k have).
Qed.

(** X6: the only exception that [diff] raises is [TypeError]: the
    subscript [have[k]] is evaluated only after [k in have], so that a key
    missing from a mapping is a "missing item" Difference and never a
    [KeyError]. *)
Theorem diff_raises_only_TypeError :
  forall (p : string) (want have : value) (e : exn),
    raised (diff p want have) = Some e -> e = TypeError.
Proof.
  intros p want. revert p.
  induction want as [s|want IH|want IH] using value_ind; intros p have e.
  - rewrite diff_scalar. now destruct (negb (py_eq s have)).
  - rewrite diff_list. unfold diff_lists, diff_lists_of.
    destruct (py_len have) as [n|e'] eqn:Hlen.
    + intros Hr. apply gen_seq_raised in Hr as [Hr|Hr].
      * now destruct (negb _).
      * destruct (py_iter have) as [items|e'] eqn:Hiter.
        -- now apply (diff_lists_loop_raises p want IH 0 items).
        -- simpl in Hr. injection Hr as <-. now apply (py_iter_raises have).
    + simpl. intros Hr. injection Hr as <-. now apply (py_len_raises have).
  - rewrite diff_dict. now apply diff_dicts_raises.
Qed.

Lemma diff_raises_only_TypeError_witness :
  raised (diff "" (VDict [("metadata", VDict [("name", VStr "web")])])
               (VDict [("metadata", VList [VStr "name"])])) = Some TypeError
  /\ TypeError = TypeError.
Proof.
  split; [reflexivity|].
  apply (diff_raises_only_TypeError ""
           (VDict [("metadata", VDict [("name", VStr "web")])])
           (VDict [("metadata", VList [VStr "name"])])).
  reflexivity.
Defined.

(** * Further properties of the aggregating printer *)

(** ** Keys *)

Lemma key_class_spec (a b : scalar) :
  key_eqb a b = true <-> key_class a = key_class b.
Proof.
  unfold key_eqb, scalar_KeyEq.
  destruct a as [|x|x|x], b as [|y|y|y]; simpl;
    try (split; [discriminate | congruence]); try tauto.
  - destruct x, y; simpl; split; congruence.
  - rewrite Z.eqb_eq. split; congruence.
  - rewrite Z.eqb_eq. split; congruence.
  - rewrite Z.eqb_eq. split; congruence.
  - rewrite String.eqb_eq. split; congruence.
Qed.

Lemma key_eqb_class (a b c : scalar) :
  key_class a = key_class b -> key_eqb a c = key_eqb b c.
Proof.
  intros Hab. destruct (key_eqb a c) eqn:Ea, (key_eqb b c) eqn:Eb; try reflexivity.
  - apply key_class_spec in Ea. rewrite Hab in Ea.
    apply key_class_spec in Ea. congruence.
  - apply key_class_spec in Eb. rewrite <- Hab in Eb.
    apply key_class_spec in Eb. congruence.
Qed.

Lemma scalar_eq_dec_class (a b : scalar) :
  {key_class a = key_class b} + {key_class a <> key_class b}.
Proof.
  destruct (key_eqb a b) eqn:E.
  - left. now apply key_class_spec.
  - right. intros H. apply key_class_spec in H. congruence.
Qed.

Section ScalarKeys.
Context {V : Type}.
Implicit Types d : list (scalar * V).

Lemma get_same_class (a b : scalar) d :
  key_class a = key_class b -> Dict.get a d = Dict.get b d.
Proof.
  intros Hab. induction d as [|[k' v'] d IH]; simpl; [reflexivity|].
  now rewrite (key_eqb_class a b k' Hab), IH.
Qed.

Lemma get_set_other_class (k k2 : scalar) (v : V) d :
  key_class k2 <> key_class k -> Dict.get k2 (Dict.set k v d) = Dict.get k2 d.
Proof.
  intros Hne.
  assert (Hk : key_eqb k2 k = false).
  { destruct (key_eqb k2 k) eqn:E; [|reflexivity].
    now apply key_class_spec in E. }
  induction d as [|[k' v'] d IH]; simpl.
  - now rewrite Hk.
  - destruct (key_eqb k k') eqn:Ek; simpl.
    + apply key_class_spec in Ek.
      assert (Hk2 : key_eqb k2 k' = false).
      { destruct (key_eqb k2 k') eqn:E; [|reflexivity].
        apply key_class_spec in E. congruence. }
      now rewrite Hk2.
    + destruct (key_eqb k2 k'); [reflexivity | exact IH].
Qed.

Lemma setdefault_other_class (k k2 : scalar) (default : V) d :
  key_class k2 <> key_class k ->
  Dict.get k2 (fst (Dict.setdefault k default d)) = Dict.get k2 d.
Proof.
  intros Hne. unfold Dict.setdefault.
  destruct (Dict.get k d); simpl; [reflexivity|].
  now apply get_set_other_class.
Qed.

Lemma setdefault_value (k : scalar) (default : V) d :
  snd (Dict.setdefault k default d) =
  match Dict.get k d with
  | Some v => v
  | None => default
  end.
Proof. unfold Dict.setdefault. now destruct (Dict.get k d). Qed.
End ScalarKeys.

(** ** Records *)

(** The types of the printer's dictionaries, spelled out, so that equal
    lookups are syntactically equal. *)
Ltac spell_out :=
  cbv delta [JSONPrinter.by_kind JSONPrinter.by_name JSONPrinter.entry] in *.

Lemma record_of_with_data (k n : scalar) (d : JSONPrinter.by_kind)
      (self : JSONPrinter.t) :
  JSONPrinter.record_of k n (JSONPrinter.with_data d self) =
  match Dict.get k d with
  | Some names => Dict.get n names
  | None => None
  end.
Proof. reflexivity. Qed.

Lemma record_after_add (kube_obj : KubeObject) (k n : scalar)
      (self : JSONPrinter.t) :
  kind kube_obj = VScalar k -> name kube_obj = VScalar n ->
  JSONPrinter.record_of k n (fst (JSONPrinter.add kube_obj self)) =
  Some (record_or_empty k n self).
Proof.
  intros Hk Hn. rewrite (add_hashable kube_obj k n self Hk Hn). simpl fst.
  rewrite record_of_with_data, (get_set_same scalar_key_refl).
  rewrite (setdefault_get scalar_key_refl). f_equal.
  rewrite !setdefault_value.
  unfold record_or_empty, JSONPrinter.record_of. spell_out.
  destruct (Dict.get k _) as [names|]; [|reflexivity].
  now destruct (Dict.get n names).
Qed.

Lemma record_other_after_add (kube_obj : KubeObject) (k n k' n' : scalar)
      (self : JSONPrinter.t) :
  kind kube_obj = VScalar k -> name kube_obj = VScalar n ->
  key_class k' <> key_class k \/ key_class n' <> key_class n ->
  JSONPrinter.record_of k' n' (fst (JSONPrinter.add kube_obj self)) =
  JSONPrinter.record_of k' n' self.
Proof.
  intros Hk Hn Hother. rewrite (add_hashable kube_obj k n self Hk Hn).
  simpl fst. rewrite record_of_with_data. unfold JSONPrinter.record_of.
  spell_out.
  destruct (scalar_eq_dec_class k' k) as [Hsame|Hdiff].
  - destruct Hother as [Hne|Hne]; [contradiction|].
    rewrite (get_same_class k' k _ Hsame), (get_set_same scalar_key_refl).
    rewrite (setdefault_other_class (V:=list (list value)) n n' [] _ Hne).
    rewrite setdefault_value, (get_same_class k' k _ Hsame).
    now destruct (Dict.get k _).
  - rewrite (get_set_other_class k k' _ _ Hdiff).
    now rewrite (setdefault_other_class
                   (V:=list (scalar * list (list value))) k k' [] _ Hdiff).
Qed.

Lemma length_set {V : Type} (k : scalar) (v : V) (d : list (scalar * V)) :
  List.length (Dict.set k v d) =
  List.length d + (if Dict.mem k d then 0 else 1).
Proof.
  unfold Dict.mem. induction d as [|[k' v'] d IH]; simpl; [reflexivity|].
  destruct (key_eqb k k'); simpl; [lia|]. rewrite IH. lia.
Qed.

Lemma length_after_add (kube_obj : KubeObject) (k n : scalar)
      (self : JSONPrinter.t) :
  kind kube_obj = VScalar k -> name kube_obj = VScalar n ->
  List.length (JSONPrinter.data (fst (JSONPrinter.add kube_obj self))) =
  List.length (JSONPrinter.data self) +
  (if Dict.mem k (JSONPrinter.data self) then 0 else 1).
Proof.
  intros Hk Hn. rewrite (add_hashable kube_obj k n self Hk Hn). simpl.
  pose proof (setdefault_get scalar_key_refl k [] (JSONPrinter.data self)) as Hget.
  rewrite length_set. unfold Dict.mem at 1. spell_out. rewrite Hget.
  rewrite Nat.add_0_r. clear Hget. unfold Dict.setdefault, Dict.mem.
  destruct (Dict.get k _) eqn:E; simpl; [lia|].
  rewrite length_set. unfold Dict.mem. spell_out. now rewrite E.
Qed.

(** C8: registering an object is idempotent: it succeeds, a second [add]
    of the same object leaves the printer as the first left it, and no [add]
    changes a record that is already there.  On a new printer, two [add]s
    of an object followed by one [diff] leave one top-level entry, for the
    kind of the object, with one name and one recorded entry
    [[path] + args].  On every printer, [add] leaves the object registered,
    with the record it had or with an empty one, and the data has one more
    top-level entry when the kind was not there and as many as before when
    it was. *)
Theorem JSONPrinter_add_idempotent :
  forall (kube_obj : KubeObject) (k n : scalar),
    kind kube_obj = VScalar k ->
    name kube_obj = VScalar n ->
    (forall self,
        snd (JSONPrinter.add kube_obj self) = Ok tt /\
        JSONPrinter.add kube_obj (fst (JSONPrinter.add kube_obj self)) =
        JSONPrinter.add kube_obj self)
    /\ (forall self k' n' r,
          JSONPrinter.record_of k' n' self = Some r ->
          JSONPrinter.record_of k' n' (fst (JSONPrinter.add kube_obj self)) = Some r)
    /\ (forall difference,
          (JSONPrinter.add kube_obj >>
           JSONPrinter.add kube_obj >>
           JSONPrinter.diff kube_obj difference)%call JSONPrinter.init =
          (JSONPrinter.mk
             [(k, [(n, [path_value (path difference) :: args difference])])] [],
           Ok tt))
    /\ (forall self,
          JSONPrinter.record_of k n (fst (JSONPrinter.add kube_obj self)) =
          Some (record_or_empty k n self))
    /\ (forall self,
          List.length (JSONPrinter.data (fst (JSONPrinter.add kube_obj self))) =
          List.length (JSONPrinter.data self) +
          (if Dict.mem k (JSONPrinter.data self) then 0 else 1)).
Proof.
  intros kube_obj k n Hk Hn. split; [|split; [|split; [|split]]].
  - intros self. split.
    + now rewrite (add_hashable kube_obj k n self Hk Hn).
    + now apply (add_twice kube_obj k n).
  - intros self k' n' r. now apply (add_keeps_records kube_obj k n).
  - intros difference. now apply add_add_diff_fresh.
  - intros self. now apply record_after_add.
  - intros self. now apply (length_after_add kube_obj k n).
Qed.

Lemma JSONPrinter_add_idempotent_witness :
  (JSONPrinter.add (mkKubeObject (VStr "default") (VStr "Service") (VStr "web")) >>
   JSONPrinter.add (mkKubeObject (VStr "default") (VStr "Service") (VStr "web")) >>
   JSONPrinter.diff (mkKubeObject (VStr "default") (VStr "Service") (VStr "web"))
     (missing_item ".spec" "ports"))%call JSONPrinter.init =
  (JSONPrinter.mk
     [(SStr "Service", [(SStr "web", [[VStr ".spec"; VStr "ports"]])])] [],
   Ok tt)
  /\ JSONPrinter.record_of (SStr "Service") (SStr "web")
       (fst (JSONPrinter.add
               (mkKubeObject (VStr "default") (VStr "Service") (VStr "web"))
               (JSONPrinter.mk [(SStr "Service", [(SStr "db", [])])] []))) =
     Some []
  /\ List.length
       (JSONPrinter.data
          (fst (JSONPrinter.add
                  (mkKubeObject (VStr "default") (VStr "Service") (VStr "web"))
                  (JSONPrinter.mk [(SStr "Service", [(SStr "db", [])])] [])))) = 1.
Proof.
  pose proof (JSONPrinter_add_idempotent
                (mkKubeObject (VStr "default") (VStr "Service") (VStr "web"))
                (SStr "Service") (SStr "web") eq_refl eq_refl)
    as (_ & _ & Hfresh & Hregistered & Hlength).
  split; [|split].
  - exact (Hfresh (missing_item ".spec" "ports")).
  - exact (Hregistered (JSONPrinter.mk [(SStr "Service", [(SStr "db", [])])] [])).
  - exact (Hlength (JSONPrinter.mk [(SStr "Service", [(SStr "db", [])])] [])).
Defined.

Lemma diff_unregistered (kube_obj : KubeObject) (k n : scalar)
      (difference : Difference) (self : JSONPrinter.t) :
  kind kube_obj = VScalar k -> name kube_obj = VScalar n ->
  JSONPrinter.record_of k n self = None ->
  JSONPrinter.diff kube_obj difference self = (self, Raise KeyError).
Proof.
  intros Hk Hn. unfold JSONPrinter.record_of, JSONPrinter.diff.
  rewrite Hk, Hn. simpl. spell_out.
  destruct (Dict.get k _) as [names|]; [|reflexivity].
  now intros ->.
Qed.

Lemma diff_registered (kube_obj : KubeObject) (k n : scalar)
      (difference : Difference) (self : JSONPrinter.t)
      (r : list JSONPrinter.entry) :
  kind kube_obj = VScalar k -> name kube_obj = VScalar n ->
  JSONPrinter.record_of k n self = Some r ->
  exists names,
    Dict.get k (JSONPrinter.data self) = Some names /\
    Dict.get n names = Some r /\
    JSONPrinter.diff kube_obj difference self =
    (JSONPrinter.with_data
       (Dict.set k (Dict.set n (r ++ [entry_of difference]) names)
                 (JSONPrinter.data self))
       self,
     Ok tt).
Proof.
  intros Hk Hn. unfold JSONPrinter.record_of, JSONPrinter.diff.
  rewrite Hk, Hn. simpl. spell_out.
  destruct (Dict.get k _) as [names|]; [|discriminate].
  intros Hr. exists names. rewrite Hr. auto.
Qed.

Lemma record_after_diff (kube_obj : KubeObject) (k n : scalar)
      (difference : Difference) (self : JSONPrinter.t)
      (r : list JSONPrinter.entry) :
  kind kube_obj = VScalar k -> name kube_obj = VScalar n ->
  JSONPrinter.record_of k n self = Some r ->
  JSONPrinter.diff kube_obj difference self =
    (fst (JSONPrinter.diff kube_obj difference self), Ok tt) /\
  JSONPrinter.record_of k n (fst (JSONPrinter.diff kube_obj difference self)) =
    Some (r ++ [entry_of difference]).
Proof.
  intros Hk Hn Hr.
  destruct (diff_registered kube_obj k n difference self r Hk Hn Hr)
    as (names & _ & _ & ->).
  split; [reflexivity|]. simpl fst.
  rewrite record_of_with_data, (get_set_same scalar_key_refl).
  apply (get_set_same scalar_key_refl).
Qed.

Lemma record_other_after_diff (kube_obj : KubeObject) (k n k' n' : scalar)
      (difference : Difference) (self : JSONPrinter.t) :
  kind kube_obj = VScalar k -> name kube_obj = VScalar n ->
  key_class k' <> key_class k \/ key_class n' <> key_class n ->
  JSONPrinter.record_of k' n' (fst (JSONPrinter.diff kube_obj difference self)) =
  JSONPrinter.record_of k' n' self.
Proof.
  intros Hk Hn Hother.
  destruct (JSONPrinter.record_of k n self) as [r|] eqn:Hr.
  - destruct (diff_registered kube_obj k n difference self r Hk Hn Hr)
      as (names & Hnames & _ & ->).
    simpl fst. rewrite record_of_with_data. unfold JSONPrinter.record_of.
    spell_out.
    destruct (scalar_eq_dec_class k' k) as [Hsame|Hdiff].
    + destruct Hother as [Hne|Hne]; [contradiction|].
      rewrite (get_same_class k' k _ Hsame), (get_set_same scalar_key_refl).
      rewrite (get_set_other_class n n' _ _ Hne).
      now rewrite (get_same_class k' k _ Hsame), Hnames.
    + now rewrite (get_set_other_class k k' _ _ Hdiff).
  - now rewrite (diff_unregistered kube_obj k n difference self Hk Hn Hr).
Qed.

Lemma add_printed (kube_obj : KubeObject) (self : JSONPrinter.t) :
  JSONPrinter.printed (fst (JSONPrinter.add kube_obj self)) =
  JSONPrinter.printed self.
Proof.
  unfold JSONPrinter.add. destruct (hash_key (kind kube_obj)); [|reflexivity].
  destruct (Dict.setdefault a [] (JSONPrinter.data self)) as [data1 names].
  destruct (hash_key (name kube_obj)); [|reflexivity].
  now destruct (Dict.setdefault a0 [] names).
Qed.

Lemma diff_printed (kube_obj : KubeObject) (difference : Difference)
      (self : JSONPrinter.t) :
  JSONPrinter.printed (fst (JSONPrinter.diff kube_obj difference self)) =
  JSONPrinter.printed self.
Proof.
  unfold JSONPrinter.diff. destruct (hash_key (kind kube_obj)); [|reflexivity].
  destruct (Dict.get a (JSONPrinter.data self)) as [names|]; [|reflexivity].
  destruct (hash_key (name kube_obj)); [|reflexivity].
  now destruct (Dict.get a0 names).
Qed.

(** X7: for an object with a hashable kind and name, [diff] on the
    printer returns exactly when the object is registered, and then appends
    the entry [[path] + args] to the record of the object; for an object
    that is not registered it raises [KeyError] and leaves the printer as
    it was. *)
Theorem JSONPrinter_diff_registered :
  forall (kube_obj : KubeObject) (k n : scalar) (difference : Difference)
         (self : JSONPrinter.t),
    kind kube_obj = VScalar k ->
    name kube_obj = VScalar n ->
    (snd (JSONPrinter.diff kube_obj difference self) = Ok tt <->
     JSONPrinter.record_of k n self <> None)
    /\ (JSONPrinter.record_of k n self = None ->
        JSONPrinter.diff kube_obj difference self = (self, Raise KeyError))
    /\ (forall r,
          JSONPrinter.record_of k n self = Some r ->
          JSONPrinter.record_of k n
            (fst (JSONPrinter.diff kube_obj difference self)) =
          Some (r ++ [entry_of difference])).
Proof.
  intros kube_obj k n difference self Hk Hn. split; [|split].
  - destruct (JSONPrinter.record_of k n self) as [r|] eqn:Hr.
    + destruct (record_after_diff kube_obj k n difference self r Hk Hn Hr)
        as [-> _].
      split; [discriminate | reflexivity].
    + rewrite (diff_unregistered kube_obj k n difference self Hk Hn Hr).
      split; [discriminate | congruence].
  - now apply diff_unregistered.
  - intros r Hr. now apply (record_after_diff kube_obj k n difference self r).
Qed.

Lemma JSONPrinter_diff_registered_witness :
  JSONPrinter.diff (mkKubeObject (VStr "default") (VStr "Service") (VStr "web"))
    (missing_item ".spec" "ports")
    (JSONPrinter.mk [(SStr "Service", [(SStr "db", [])])] []) =
  (JSONPrinter.mk [(SStr "Service", [(SStr "db", [])])] [], Raise KeyError).
Proof.
  apply (proj1 (proj2 (JSONPrinter_diff_registered
                         (mkKubeObject (VStr "default") (VStr "Service") (VStr "web"))
                         (SStr "Service") (SStr "web")
                         (missing_item ".spec" "ports")
                         (JSONPrinter.mk [(SStr "Service", [(SStr "db", [])])] [])
                         eq_refl eq_refl))).
  reflexivity.
Defined.

(** X8: [add] and [diff] for one object leave the record of every other
    object as it was: another object is one whose kind or whose name is not
    equal to that of the object. *)
Theorem JSONPrinter_other_records_kept :
  forall (kube_obj : KubeObject) (k n k' n' : scalar) (difference : Difference)
         (self : JSONPrinter.t),
    kind kube_obj = VScalar k ->
    name kube_obj = VScalar n ->
    key_eqb k' k = false \/ key_eqb n' n = false ->
    JSONPrinter.record_of k' n' (fst (JSONPrinter.add kube_obj self)) =
      JSONPrinter.record_of k' n' self
    /\ JSONPrinter.record_of k' n'
         (fst (JSONPrinter.diff kube_obj difference self)) =
       JSONPrinter.record_of k' n' self.
Proof.
  intros kube_obj k n k' n' difference self Hk Hn Hother.
  assert (Hclass : key_class k' <> key_class k \/ key_class n' <> key_class n).
  { destruct Hother as [H|H]; [left|right]; intros Hc;
      apply key_class_spec in Hc; congruence. }
  split.
  - now apply (record_other_after_add kube_obj k n).
  - now apply (record_other_after_diff kube_obj k n).
Qed.

Lemma JSONPrinter_other_records_kept_witness :
  JSONPrinter.record_of (SStr "Service") (SStr "db")
    (fst (JSONPrinter.add
            (mkKubeObject (VStr "default") (VStr "Service") (VStr "web"))
            (JSONPrinter.mk [(SStr "Service", [(SStr "db", [[VNone; VStr "boom"]])])] []))) =
  JSONPrinter.record_of (SStr "Service") (SStr "db")
    (JSONPrinter.mk [(SStr "Service", [(SStr "db", [[VNone; VStr "boom"]])])] [])
  /\ JSONPrinter.record_of (SStr "Service") (SStr "db")
       (fst (JSONPrinter.diff
               (mkKubeObject (VStr "default") (VStr "Service") (VStr "web"))
               (missing_item "" "spec")
               (JSONPrinter.mk [(SStr "Service", [(SStr "db", [[VNone; VStr "boom"]])])] []))) =
     JSONPrinter.record_of (SStr "Service") (SStr "db")
       (JSONPrinter.mk [(SStr "Service", [(SStr "db", [[VNone; VStr "boom"]])])] []).
Proof.
  apply (JSONPrinter_other_records_kept
           (mkKubeObject (VStr "default") (VStr "Service") (VStr "web"))
           (SStr "Service") (SStr "web") (SStr "Service") (SStr "db")
           (missing_item "" "spec")
           (JSONPrinter.mk [(SStr "Service", [(SStr "db", [[VNone; VStr "boom"]])])] [])
           eq_refl eq_refl).
  right. reflexivity.
Defined.

(** ** The number of entries *)

Lemma entries_by_name_set (n : scalar) (r' : list JSONPrinter.entry)
      (names : JSONPrinter.by_name) :
  entries_by_name (Dict.set n r' names) +
  List.length (match Dict.get n names with Some r => r | None => [] end) =
  entries_by_name names + List.length r'.
Proof.
  induction names as [|[n0 r0] names IH]; simpl; [lia|].
  destruct (key_eqb n n0); simpl; lia.
Qed.

Lemma entries_set (k : scalar) (names' : JSONPrinter.by_name)
      (data : JSONPrinter.by_kind) :
  entries (Dict.set k names' data) +
  entries_by_name (match Dict.get k data with Some nm => nm | None => [] end) =
  entries data + entries_by_name names'.
Proof.
  induction data as [|[k0 nm0] data IH]; simpl; [lia|].
  destruct (key_eqb k k0); simpl; lia.
Qed.

Lemma entries_setdefault_names (n : scalar) (names : JSONPrinter.by_name) :
  entries_by_name (fst (Dict.setdefault n [] names)) = entries_by_name names.
Proof.
  unfold Dict.setdefault. spell_out.
  destruct (Dict.get n _) eqn:E; [reflexivity|].
  simpl fst. pose proof (entries_by_name_set n [] names) as H.
  spell_out. rewrite E in H. simpl in H. lia.
Qed.

Lemma entries_setdefault (k : scalar) (data : JSONPrinter.by_kind) :
  entries (fst (Dict.setdefault k [] data)) = entries data.
Proof.
  unfold Dict.setdefault. spell_out.
  destruct (Dict.get k _) eqn:E; [reflexivity|].
  simpl fst. pose proof (entries_set k [] data) as H.
  spell_out. rewrite E in H. simpl in H. lia.
Qed.

Lemma entries_after_add (kube_obj : KubeObject) (self : JSONPrinter.t) :
  entries (JSONPrinter.data (fst (JSONPrinter.add kube_obj self))) =
  entries (JSONPrinter.data self).
Proof.
  unfold JSONPrinter.add.
  destruct (hash_key (kind kube_obj)) as [k|]; [|reflexivity].
  pose proof (entries_setdefault k (JSONPrinter.data self)) as Houter.
  pose proof (setdefault_get scalar_key_refl k [] (JSONPrinter.data self)) as Hget.
  destruct (Dict.setdefault k [] (JSONPrinter.data self)) as [data1 names].
  simpl in Houter, Hget.
  destruct (hash_key (name kube_obj)) as [n|]; [|exact Houter].
  pose proof (entries_setdefault_names n names) as Hinner.
  destruct (Dict.setdefault n [] names) as [names' r]. simpl in Hinner.
  simpl. pose proof (entries_set k names' data1) as H.
  spell_out. rewrite Hget in H. lia.
Qed.

Lemma entries_after_diff (kube_obj : KubeObject) (k n : scalar)
      (difference : Difference) (self : JSONPrinter.t)
      (r : list JSONPrinter.entry) :
  kind kube_obj = VScalar k -> name kube_obj = VScalar n ->
  JSONPrinter.record_of k n self = Some r ->
  entries (JSONPrinter.data (fst (JSONPrinter.diff kube_obj difference self))) =
  S (entries (JSONPrinter.data self)).
Proof.
  intros Hk Hn Hr.
  destruct (diff_registered kube_obj k n difference self r Hk Hn Hr)
    as (names & Hnames & Hrec & ->).
  simpl.
  pose proof (entries_set k (Dict.set n (r ++ [entry_of difference]) names)
                (JSONPrinter.data self)) as Houter.
  pose proof (entries_by_name_set n (r ++ [entry_of difference]) names) as Hinner.
  spell_out. rewrite Hnames in Houter. rewrite Hrec in Hinner.
  rewrite length_app in Hinner. simpl in Hinner. lia.
Qed.

(** * Further properties of the orchestrator *)

(** ** One file, reported to the aggregating printer *)

Lemma forward_reports (kube_obj : KubeObject) (k n : scalar)
      (ds : list Difference) (stop : option exn) :
  kind kube_obj = VScalar k -> name kube_obj = VScalar n ->
  forall (differences : Z) (self : JSONPrinter.t) (r : list JSONPrinter.entry),
    JSONPrinter.record_of k n self = Some r ->
    snd (forward kube_obj ds stop differences self) =
      match stop with
      | None => Ok (differences + Z.of_nat (List.length ds))%Z
      | Some e => Raise e
      end
    /\ JSONPrinter.record_of k n (fst (forward kube_obj ds stop differences self)) =
       Some (r ++ map entry_of ds)
    /\ entries (JSONPrinter.data (fst (forward kube_obj ds stop differences self))) =
       entries (JSONPrinter.data self) + List.length ds.
Proof.
  intros Hk Hn. induction ds as [|d ds IH]; intros differences self r Hr.
  - simpl. rewrite app_nil_r, Z.add_0_r, Nat.add_0_r.
    destruct stop; simpl; auto.
  - simpl forward. unfold bind. simpl printer_diff.
    destruct (record_after_diff kube_obj k n d self r Hk Hn Hr) as [Hd Hr'].
    pose proof (entries_after_diff kube_obj k n d self r Hk Hn Hr) as He.
    rewrite Hd.
    destruct (IH (differences + 1)%Z _ _ Hr') as (Hres & Hrec & Hent).
    rewrite Hres, Hrec, Hent, He. split; [|split].
    + destruct stop; [reflexivity|]. f_equal. simpl List.length. lia.
    + now rewrite <- app_assoc.
    + simpl. lia.
Qed.

Lemma add_returns (kube_obj : KubeObject) (k n : scalar) (self : JSONPrinter.t) :
  kind kube_obj = VScalar k -> name kube_obj = VScalar n ->
  JSONPrinter.add kube_obj self = (fst (JSONPrinter.add kube_obj self), Ok tt).
Proof. intros Hk Hn. now rewrite (add_hashable kube_obj k n self Hk Hn). Qed.

(** [check_file] after a successful fetch, on the aggregating printer. *)
Lemma check_file_fetched (yaml_load : string -> value)
      (get_from_cluster : KubeObject -> fetch_result)
      (path : string) (kube_obj : KubeObject) (k n : scalar)
      (running : value) (self : JSONPrinter.t) :
  from_dict (yaml_load path) = Ok kube_obj ->
  kind kube_obj = VScalar k ->
  name kube_obj = VScalar n ->
  get_from_cluster kube_obj = Fetched running ->
  check_file yaml_load get_from_cluster path self =
  (fst (forward kube_obj (yielded (diff "" (yaml_load path) running))
                (raised (diff "" (yaml_load path) running)) 0%Z
                (fst (JSONPrinter.add kube_obj self))),
   match snd (forward kube_obj (yielded (diff "" (yaml_load path) running))
                      (raised (diff "" (yaml_load path) running)) 0%Z
                      (fst (JSONPrinter.add kube_obj self))) with
   | Ok differences => Ok (VInt differences)
   | Raise e => Raise e
   end).
Proof.
  intros Hobj Hk Hn Hfetch. unfold check_file, bind, lift, ret.
  rewrite Hobj. simpl printer_add.
  rewrite (add_returns kube_obj k n self Hk Hn), Hfetch.
  now destruct (forward kube_obj _ _ 0%Z _) as [self' [c|e]].
Qed.

(** X9: when the fetch succeeds, [check_file] hands to the aggregating
    printer exactly what the engine yields for the declared and the live
    tree under the empty path: the record of the object grows by the entries
    of these Differences, in order; the value returned is their number, or
    the exception of the engine is raised after the Differences yielded
    before it are recorded. *)
Theorem check_file_reports_engine :
  forall (yaml_load : string -> value)
         (get_from_cluster : KubeObject -> fetch_result)
         (path : string) (kube_obj : KubeObject) (k n : scalar)
         (running : value) (self : JSONPrinter.t),
    from_dict (yaml_load path) = Ok kube_obj ->
    kind kube_obj = VScalar k ->
    name kube_obj = VScalar n ->
    get_from_cluster kube_obj = Fetched running ->
    snd (check_file yaml_load get_from_cluster path self) =
      match raised (diff "" (yaml_load path) running) with
      | None =>
          Ok (VInt (Z.of_nat
                      (List.length (yielded (diff "" (yaml_load path) running)))))
      | Some e => Raise e
      end
    /\ JSONPrinter.record_of k n
         (fst (check_file yaml_load get_from_cluster path self)) =
       Some (record_or_empty k n self ++
             map entry_of (yielded (diff "" (yaml_load path) running))).
Proof.
  intros yaml_load get_from_cluster path kube_obj k n running self
         Hobj Hk Hn Hfetch.
  pose proof (record_after_add kube_obj k n self Hk Hn) as Hr.
  destruct (forward_reports kube_obj k n
              (yielded (diff "" (yaml_load path) running))
              (raised (diff "" (yaml_load path) running)) Hk Hn 0%Z _ _ Hr)
    as (Hres & Hrec & _).
  rewrite (check_file_fetched yaml_load get_from_cluster path kube_obj k n
             running self Hobj Hk Hn Hfetch).
  simpl fst. simpl snd. rewrite Hres. split; [|exact Hrec].
  now destruct (raised (diff "" (yaml_load path) running)).
Qed.

Lemma check_file_reports_engine_witness :
  snd (check_file (fun _ => declared_web) (fun _ => Fetched live_web)
                  "web.yaml" JSONPrinter.init) = Ok (VInt 1)
  /\ JSONPrinter.record_of (SStr "Service") (SStr "web")
       (fst (check_file (fun _ => declared_web) (fun _ => Fetched live_web)
                        "web.yaml" JSONPrinter.init)) =
     Some [[VStr ".spec.ports"; VInt 2; VInt 1]].
Proof.
  apply (check_file_reports_engine
           (fun _ => declared_web) (fun _ => Fetched live_web) "web.yaml"
           (mkKubeObject (VStr "default") (VStr "Service") (VStr "web"))
           (SStr "Service") (SStr "web") live_web JSONPrinter.init);
    reflexivity.
Defined.

(** ** The printed report *)

Lemma keeps_printed_ret {A : Type} (a : A) : keeps_printed (ret a).
Proof. intros self. reflexivity. Qed.

Lemma keeps_printed_fail {A : Type} (e : exn) : keeps_printed (@fail _ A e).
Proof. intros self. reflexivity. Qed.

Lemma keeps_printed_lift {A : Type} (r : result A) : keeps_printed (lift r).
Proof. intros self. reflexivity. Qed.

Lemma keeps_printed_bind {A B : Type} (c : call JSONPrinter.t A)
      (k : A -> call JSONPrinter.t B) :
  keeps_printed c -> (forall a, keeps_printed (k a)) -> keeps_printed (bind c k).
Proof.
  intros Hc Hk self. unfold bind. specialize (Hc self).
  destruct (c self) as [self' [a|e]]; simpl in *.
  - now rewrite (Hk a self').
  - exact Hc.
Qed.

Lemma keeps_printed_add (kube_obj : KubeObject) :
  keeps_printed (printer_add kube_obj).
Proof. intros self. apply add_printed. Qed.

Lemma keeps_printed_diff (kube_obj : KubeObject) (difference : Difference) :
  keeps_printed (printer_diff kube_obj difference).
Proof. intros self. apply diff_printed. Qed.

Lemma keeps_printed_forward (kube_obj : KubeObject) (ds : list Difference)
      (stop : option exn) (differences : Z) :
  keeps_printed (forward kube_obj ds stop differences).
Proof.
  revert differences. induction ds as [|d ds IH]; intros differences; simpl.
  - destruct stop; [apply keeps_printed_fail | apply keeps_printed_ret].
  - apply keeps_printed_bind; [apply keeps_printed_diff | intros _; apply IH].
Qed.

Lemma keeps_printed_check_file (yaml_load : string -> value)
      (get_from_cluster : KubeObject -> fetch_result) (path : string) :
  keeps_printed (check_file yaml_load get_from_cluster path).
Proof.
  unfold check_file.
  apply keeps_printed_bind; [apply keeps_printed_lift|]. intros kube_obj.
  apply keeps_printed_bind; [apply keeps_printed_add|]. intros _.
  destruct (get_from_cluster kube_obj).
  - apply keeps_printed_bind; [apply keeps_printed_forward|].
    intros differences. apply keeps_printed_ret.
  - apply keeps_printed_bind; [apply keeps_printed_diff|].
    intros _. apply keeps_printed_ret.
Qed.

Lemma keeps_printed_check_files_loop (yaml_load : string -> value)
      (get_from_cluster : KubeObject -> fetch_result)
      (splitext_extension : string -> string) (files : list string) :
  forall differences,
    keeps_printed (check_files_loop yaml_load get_from_cluster
                                    splitext_extension files differences).
Proof.
  induction files as [|path files IH]; intros differences; simpl.
  - apply keeps_printed_ret.
  - destruct (negb _); [apply IH|].
    apply keeps_printed_bind; [apply keeps_printed_check_file|]. intros r.
    apply keeps_printed_bind; [apply keeps_printed_lift|]. intros d. apply IH.
Qed.

(** X10: [check_files] with the aggregating printer prints the report
    once, when every file is checked, and the report is the data as it is
    at the end; when the batch raises, nothing is printed. *)
Theorem check_files_prints_once :
  forall (yaml_load : string -> value)
         (get_from_cluster : KubeObject -> fetch_result)
         (iter_files : list string -> list string)
         (splitext_extension : string -> string)
         (paths : list string) (self : JSONPrinter.t),
    JSONPrinter.printed
      (fst (check_files yaml_load get_from_cluster iter_files
                        splitext_extension paths self)) =
    match snd (check_files yaml_load get_from_cluster iter_files
                           splitext_extension paths self) with
    | Ok _ =>
        JSONPrinter.printed self ++
        [JSONPrinter.data
           (fst (check_files yaml_load get_from_cluster iter_files
                             splitext_extension paths self))]
    | Raise _ => JSONPrinter.printed self
    end.
Proof.
  intros yaml_load get_from_cluster iter_files splitext_extension paths self.
  unfold check_files, bind.
  pose proof (keeps_printed_check_files_loop yaml_load get_from_cluster
                splitext_extension (iter_files paths) 0%Z self) as Hkeeps.
  destruct (check_files_loop _ _ _ _ _ self) as [self' [differences|e]];
    simpl in *.
  - now rewrite Hkeeps.
  - exact Hkeeps.
Qed.

(** ** The flag of the batch *)

Lemma add_ok_hashable (kube_obj : KubeObject) (self self' : JSONPrinter.t) :
  JSONPrinter.add kube_obj self = (self', Ok tt) ->
  exists k n, kind kube_obj = VScalar k /\ name kube_obj = VScalar n.
Proof.
  unfold JSONPrinter.add, hash_key.
  destruct (kind kube_obj) as [k| |]; try discriminate.
  destruct (Dict.setdefault k [] (JSONPrinter.data self)) as [data1 names].
  destruct (name kube_obj) as [n| |]; try discriminate.
  intros _. eauto.
Qed.

(** A file that [check_file] returns from: the value is [None], or the
    number of entries that the data has gained. *)
Lemma check_file_counts (yaml_load : string -> value)
      (get_from_cluster : KubeObject -> fetch_result) (path : string)
      (self self' : JSONPrinter.t) (r : value) :
  check_file yaml_load get_from_cluster path self = (self', Ok r) ->
  r = VNone \/
  exists c : nat,
    r = VInt (Z.of_nat c) /\
    entries (JSONPrinter.data self') = entries (JSONPrinter.data self) + c.
Proof.
  destruct (from_dict (yaml_load path)) as [kube_obj|e] eqn:Hobj.
  2:{ unfold check_file, bind, lift. rewrite Hobj. discriminate. }
  destruct (JSONPrinter.add kube_obj self) as [self1 [[]|e]] eqn:Hadd.
  2:{ unfold check_file, bind, lift. rewrite Hobj. simpl printer_add.
      rewrite Hadd. discriminate. }
  destruct (add_ok_hashable kube_obj self self1 Hadd) as (k & n & Hk & Hn).
  destruct (get_from_cluster kube_obj) as [running|output] eqn:Hfetch.
  - rewrite (check_file_fetched yaml_load get_from_cluster path kube_obj k n
               running self Hobj Hk Hn Hfetch).
    pose proof (record_after_add kube_obj k n self Hk Hn) as Hr.
    destruct (forward_reports kube_obj k n
                (yielded (diff "" (yaml_load path) running))
                (raised (diff "" (yaml_load path) running)) Hk Hn 0%Z _ _ Hr)
      as (Hres & _ & Hent).
    rewrite entries_after_add in Hent.
    destruct (forward kube_obj _ _ 0%Z _) as [self2 [differences|e]];
      simpl in *; [|discriminate].
    intros H. injection H as <- <-. right.
    exists (List.length (yielded (diff "" (yaml_load path) running))).
    split; [|exact Hent].
    destruct (raised (diff "" (yaml_load path) running)); [discriminate|].
    now injection Hres as ->.
  - unfold check_file, bind, lift, ret. rewrite Hobj. simpl printer_add.
    rewrite Hadd, Hfetch. simpl printer_diff.
    destruct (JSONPrinter.diff kube_obj (broken_cluster output) self1)
      as [self2 [[]|e]]; [|discriminate].
    intros H. injection H as _ <-. now left.
Qed.

Lemma check_files_loop_counts (yaml_load : string -> value)
      (get_from_cluster : KubeObject -> fetch_result)
      (splitext_extension : string -> string) (files : list string) :
  forall (differences differences' : Z) (self self' : JSONPrinter.t),
    check_files_loop yaml_load get_from_cluster splitext_extension files
                     differences self = (self', Ok differences') ->
    exists c : nat,
      differences' = (differences + Z.of_nat c)%Z /\
      entries (JSONPrinter.data self') = entries (JSONPrinter.data self) + c.
Proof.
  induction files as [|path files IH]; intros d d' self self'; simpl.
  - intros H. injection H as <- <-. exists 0. split; [lia | lia].
  - destruct (negb _); [apply IH|].
    unfold bind at 1.
    destruct (check_file yaml_load get_from_cluster path self)
      as [self1 [r|e]] eqn:Hfile; [|discriminate].
    destruct (check_file_counts _ _ _ _ _ _ Hfile) as [->|(c & -> & Hent)].
    + discriminate.
    + unfold bind, lift. simpl py_iadd. intros Hrest.
      destruct (IH _ _ _ _ Hrest) as (c' & -> & Hent').
      exists (c + c'). split; lia.
Qed.

(** X11: when [check_files] with the aggregating printer returns, the
    flag it returns is [True] exactly when the batch has added an entry to
    the data; the data never loses an entry. *)
Theorem check_files_flag :
  forall (yaml_load : string -> value)
         (get_from_cluster : KubeObject -> fetch_result)
         (iter_files : list string -> list string)
         (splitext_extension : string -> string)
         (paths : list string) (self self' : JSONPrinter.t) (flag : bool),
    check_files yaml_load get_from_cluster iter_files splitext_extension
                paths self = (self', Ok flag) ->
    entries (JSONPrinter.data self) <= entries (JSONPrinter.data self')
    /\ flag = negb (Nat.eqb (entries (JSONPrinter.data self'))
                            (entries (JSONPrinter.data self))).
Proof.
  intros yaml_load get_from_cluster iter_files splitext_extension paths
         self self' flag.
  unfold check_files, bind at 1.
  destruct (check_files_loop _ _ _ _ _ self) as [self1 [d|e]] eqn:Hloop;
    [|discriminate].
  destruct (check_files_loop_counts _ _ _ _ _ _ _ _ Hloop) as (c & -> & Hent).
  unfold bind, ret. simpl. intros H. injection H as <- <-. simpl.
  split; [lia|]. rewrite Hent.
  destruct c as [|c].
  - now rewrite Nat.add_0_r, Nat.eqb_refl.
  - replace (Nat.eqb _ _) with false; [reflexivity|].
    symmetry. apply Nat.eqb_neq. lia.
Qed.

Lemma check_files_flag_witness :
  entries (JSONPrinter.data JSONPrinter.init) <=
  entries [(SStr "Service", [(SStr "web", [[VStr ".spec.ports"; VInt 2; VInt 1]])])]
  /\ true =
     negb (Nat.eqb
             (entries [(SStr "Service",
                        [(SStr "web", [[VStr ".spec.ports"; VInt 2; VInt 1]])])])
             (entries (JSONPrinter.data JSONPrinter.init))).
Proof.
  apply (check_files_flag
           (fun _ => declared_web) (fun _ => Fetched live_web)
           plain_files yaml_extension ["web.yaml"] JSONPrinter.init
           (JSONPrinter.mk
              [(SStr "Service", [(SStr "web", [[VStr ".spec.ports"; VInt 2; VInt 1]])])]
              [[(SStr "Service", [(SStr "web", [[VStr ".spec.ports"; VInt 2; VInt 1]])])]])
           true).
  reflexivity.
Defined.

(** ** Files that are not checked *)

Lemma check_files_loop_only_yaml {P : Type} `{Printer P}
      (yaml_load : string -> value)
      (get_from_cluster : KubeObject -> fetch_result)
      (splitext_extension : string -> string) (files : list string) :
  forall (differences : Z) (p : P),
    check_files_loop yaml_load get_from_cluster splitext_extension
                     (filter (is_yaml splitext_extension) files) differences p =
    check_files_loop yaml_load get_from_cluster splitext_extension
                     files differences p.
Proof.
  induction files as [|path files IH]; intros differences p; [reflexivity|].
  simpl filter. unfold is_yaml at 1.
  destruct (String.eqb (splitext_extension path) ".yaml") eqn:E.
  - simpl. rewrite E. simpl. unfold bind.
    destruct (check_file yaml_load get_from_cluster path p) as [p1 [r|e]];
      [|reflexivity].
    unfold lift. destruct (py_iadd differences r); [apply IH | reflexivity].
  - simpl. rewrite E. simpl. apply IH.
Qed.

(** X12: a file whose extension is not [.yaml] has no effect on the
    batch: with any printer, [check_files] on the files found is
    [check_files] on those of them whose extension is [.yaml]. *)
Theorem check_files_only_yaml :
  forall (P : Type) (printer : Printer P)
         (yaml_load : string -> value)
         (get_from_cluster : KubeObject -> fetch_result)
         (iter_files : list string -> list string)
         (splitext_extension : string -> string)
         (paths : list string) (p : P),
    check_files yaml_load get_from_cluster iter_files splitext_extension paths p =
    check_files yaml_load get_from_cluster
                (fun paths => filter (is_yaml splitext_extension) (iter_files paths))
                splitext_extension paths p.
Proof.
  intros P printer yaml_load get_from_cluster iter_files splitext_extension
         paths p.
  unfold check_files, bind at 1 3.
  now rewrite check_files_loop_only_yaml.
Qed.

(** * Properties of the text of a Difference *)

Lemma append_nil_r (s : string) : (s ++ "")%string = s.
Proof. induction s as [|c s IH]; simpl; [reflexivity | now rewrite IH]. Qed.

Lemma to_text_different_lengths (repr_container : value -> string)
      (p : string) (n m : nat) :
  to_text repr_container (different_lengths p n m) =
  Formatted (p ++ ": Unequal lengths: " ++ dec_int (Z.of_nat n) ++ " != "
               ++ dec_int (Z.of_nat m)).
Proof.
  unfold to_text. simpl. rewrite !append_nil_r. reflexivity.
Qed.

Lemma to_text_missing_item (repr_container : value -> string) (p k : string) :
  to_text repr_container (missing_item p k) =
  Formatted (p ++ ": '" ++ k ++ "' missing").
Proof.
  unfold to_text. simpl. rewrite !append_nil_r. reflexivity.
Qed.

Lemma to_text_not_equal (repr_container : value -> string) (p : string)
      (want have : value) :
  to_text repr_container (not_equal p want have) =
  Formatted (p ++ ": '" ++ py_str repr_container want ++ "' != '"
               ++ py_str repr_container have ++ "'").
Proof.
  unfold to_text. simpl. rewrite !append_nil_r. reflexivity.
Qed.

Lemma to_text_broken_cluster (repr_container : value -> string) (output : string) :
  to_text repr_container (broken_cluster output) = Formatted (" *** " ++ output).
Proof.
  unfold to_text. simpl. rewrite !append_nil_r. reflexivity.
Qed.

(** X13: the templates of the four Differences take the arguments they
    are given: [to_text] renders an "unequal lengths", a "missing item"
    and a "not equal" Difference as the path, a colon and the message, and
    the Difference of a failed fetch, which has no path, as the message
    alone; on a Difference that [diff] yields it never raises. *)
Theorem to_text_of_differences :
  forall (repr_container : value -> string),
    (forall p n m,
        to_text repr_container (different_lengths p n m) =
        Formatted (p ++ ": Unequal lengths: " ++ dec_int (Z.of_nat n) ++ " != "
                     ++ dec_int (Z.of_nat m)))
    /\ (forall p k,
          to_text repr_container (missing_item p k) =
          Formatted (p ++ ": '" ++ k ++ "' missing"))
    /\ (forall p want have,
          to_text repr_container (not_equal p want have) =
          Formatted (p ++ ": '" ++ py_str repr_container want ++ "' != '"
                       ++ py_str repr_container have ++ "'"))
    /\ (forall output,
          to_text repr_container (broken_cluster output) =
          Formatted (" *** " ++ output))
    /\ (forall p want have d,
          In d (yielded (diff p want have)) ->
          exists text, to_text repr_container d = Formatted text).
Proof.
  intros repr_container. repeat split.
  - apply to_text_different_lengths.
  - apply to_text_missing_item.
  - apply to_text_not_equal.
  - apply to_text_broken_cluster.
  - intros p want have d Hin. apply diff_yields_one_of_three in Hin.
    destruct Hin as [q n m _|q k|q s v _]; eexists.
    + apply to_text_different_lengths.
    + apply to_text_missing_item.
    + apply to_text_not_equal.
Qed.

Lemma to_text_of_differences_witness :
  exists text,
    to_text (fun _ => "[...]") (not_equal ".spec.replicas" (VInt 3) (VBool true)) =
    Formatted text.
Proof.
  apply (proj2 (proj2 (proj2 (proj2 (to_text_of_differences (fun _ => "[...]")))))
           "" (VDict [("spec", VDict [("replicas", VInt 3)])])
           (VDict [("spec", VDict [("replicas", VBool true)])])).
  simpl. left. reflexivity.
Defined.

(** A "not equal" Difference between a number and a boolean, as text. *)
Example to_text_example :
  to_text (fun _ => "[...]") (not_equal ".spec.replicas" (VInt 3) (VBool true)) =
  Formatted ".spec.replicas: '3' != 'True'".
Proof. reflexivity. Qed.

(** * The order of the keys of the live tree *)

Lemma py_eq_same_tree (s : scalar) (have have' : value) :
  same_tree have have' -> py_eq s have = py_eq s have'.
Proof. intros H. destruct H; [reflexivity| |]; now destruct s. Qed.

Lemma same_outcome_seq (g1 g1' g2 g2' : Gen) :
  same_outcome g1 g1' -> same_outcome g2 g2' ->
  same_outcome (g1 ;; g2) (g1' ;; g2').
Proof.
  intros [Hy1 Hr1] [Hy2 Hr2]. unfold gen_seq. rewrite <- Hr1.
  destruct (raised g1) eqn:E.
  - split; [exact Hy1 | congruence].
  - split; simpl; [now apply Forall2_app | exact Hr2].
Qed.

Lemma same_outcome_refl_done : same_outcome done done.
Proof. split; [constructor | reflexivity]. Qed.

Lemma same_outcome_throw (e : exn) : same_outcome (throw e) (throw e).
Proof. split; [constructor | reflexivity]. Qed.

Lemma same_outcome_yield (d d' : Difference) :
  same_difference d d' -> same_outcome (yield d) (yield d').
Proof. intros H. split; [constructor; [exact H | constructor] | reflexivity]. Qed.

Lemma diff_lists_loop_same_tree (p : string) (want : list value) :
  (forall v, In v want ->
     forall p' have have',
       same_tree have have' -> conforms v have = true ->
       same_outcome (diff p' v have) (diff p' v have')) ->
  forall i have have',
    Forall2 same_tree have have' ->
    conforms_lists conforms want have = true ->
    same_outcome (diff_lists_loop diff p i want have)
                 (diff_lists_loop diff p i want have').
Proof.
  induction want as [|w want IH]; intros Hrec i have have' Hsame;
    [destruct Hsame; intros _; apply same_outcome_refl_done|].
  destruct Hsame as [|h h' have have' Hh Hsame];
    [intros _; apply same_outcome_refl_done|].
  simpl. intros Hc. apply andb_prop in Hc as [Hw Hrest].
  apply same_outcome_seq.
  - now apply (Hrec w (or_introl eq_refl)).
  - apply IH; auto. intros v Hv. apply Hrec. now right.
Qed.

Lemma diff_dicts_same_tree (p : string) (want : list (string * value)) :
  (forall k v, In (k, v) want ->
     forall p' have have',
       same_tree have have' -> conforms v have = true ->
       same_outcome (diff p' v have) (diff p' v have')) ->
  forall h h',
    (forall k a, Dict.get k h = Some a ->
                 exists b, Dict.get k h' = Some b /\ same_tree a b) ->
    (forall k, Dict.get k h = None -> Dict.get k h' = None) ->
    conforms_dicts conforms want h = true ->
    same_outcome (diff_dicts p want (VDict h)) (diff_dicts p want (VDict h')).
Proof.
  induction want as [|[k w] want IH]; intros Hrec h h' Hsome Hnone;
    [intros _; apply same_outcome_refl_done|].
  simpl conforms_dicts. intros Hc. apply andb_prop in Hc as [Hw Hrest].
  rewrite !diff_dicts_cons. unfold py_contains, py_getitem, Dict.mem.
  assert (Hnext : same_outcome (diff_dicts p want (VDict h))
                               (diff_dicts p want (VDict h'))).
  { apply IH; auto. intros k' v' Hin. apply (Hrec k' v'). now right. }
  destruct (Dict.get k h) as [a|] eqn:Hget.
  - destruct (Hsome k a Hget) as (b & -> & Hab).
    apply same_outcome_seq; [|exact Hnext].
    now apply (Hrec k w (or_introl eq_refl)).
  - rewrite (Hnone k Hget).
    apply same_outcome_seq; [|exact Hnext].
    apply same_outcome_yield. repeat split. repeat constructor.
Qed.

Lemma diff_same_lookups (want : value) :
  forall p have have',
    same_tree have have' -> conforms want have = true ->
    same_outcome (diff p want have) (diff p want have').
Proof.
  induction want as [s|want IH|want IH] using value_ind;
    intros p have have' Hsame Hc.
  - rewrite !diff_scalar. rewrite <- (py_eq_same_tree s have have' Hsame).
    destruct (negb (py_eq s have)); [|apply same_outcome_refl_done].
    apply same_outcome_yield. repeat split. simpl.
    constructor; [constructor | constructor; [exact Hsame | constructor]].
  - destruct Hsame as [?|h h' Hsame|? ? ? ?]; try discriminate. simpl in Hc.
    rewrite !diff_list. unfold diff_lists, diff_lists_of. simpl py_len.
    simpl py_iter. cbv beta iota.
    rewrite <- (Forall2_length Hsame). apply same_outcome_seq.
    + destruct (negb _); [|apply same_outcome_refl_done].
      apply same_outcome_yield. repeat split. repeat constructor.
    + now apply diff_lists_loop_same_tree.
  - destruct Hsame as [?|? ? ?|h h' Hsome Hnone]; try discriminate.
    simpl in Hc. rewrite !diff_dict. now apply diff_dicts_same_tree.
Qed.

(** X14: the outcome of [diff] does not depend on the order in which
    the mappings of the live tree hold their keys: against two live trees
    that are the same up to that order, of the shape that [want] expects,
    [diff] yields Differences with the same messages and paths, in the same
    order, whose values are the same up to that order, and it raises the
    same. *)
Theorem diff_ignores_key_order :
  forall (p : string) (want have have' : value),
    same_tree have have' ->
    conforms want have = true ->
    same_outcome (diff p want have) (diff p want have').
Proof. intros p want have have' Hsame Hc. now apply diff_same_lookups. Qed.

Lemma swapped_keys_same_tree :
  same_tree (VDict [("a", VInt 1); ("b", VInt 2)])
            (VDict [("b", VInt 2); ("a", VInt 1)]).
Proof.
  constructor.
  - intros k a. simpl. unfold key_eqb, string_KeyEq.
    destruct (String.eqb k "a") eqn:Ea.
    + apply String.eqb_eq in Ea. subst k. simpl. intros H. injection H as <-.
      exists (VInt 1). split; [reflexivity | constructor].
    + destruct (String.eqb k "b"); [|discriminate].
      intros H. injection H as <-.
      exists (VInt 2). split; [reflexivity | constructor].
  - intros k. simpl. unfold key_eqb, string_KeyEq.
    destruct (String.eqb k "a") eqn:Ea; [discriminate|].
    destruct (String.eqb k "b"); [discriminate | reflexivity].
Qed.

Lemma diff_ignores_key_order_witness :
  same_outcome
    (diff "" (VDict [("b", VInt 3); ("c", VNone)])
             (VDict [("a", VInt 1); ("b", VInt 2)]))
    (diff "" (VDict [("b", VInt 3); ("c", VNone)])
             (VDict [("b", VInt 2); ("a", VInt 1)])).
Proof.
  apply diff_ignores_key_order; [exact swapped_keys_same_tree | reflexivity].
Defined.

(** * Further properties of the object identity *)

(** X15: [from_dict] raises [TypeError] when the data is not a mapping,
    or has a kind and a metadata that is not a mapping; it raises
    [KeyError] when the data is a mapping without a kind or without
    metadata, or the metadata is a mapping without a name; the kind is
    looked up first.  It raises nothing else. *)
Theorem from_dict_errors :
  forall (data : value) (e : exn),
    from_dict data = Raise e ->
    (e = TypeError /\
     (is_dict data = false \/
      exists m, field ["kind"] data <> None /\
                field ["metadata"] data = Some m /\ is_dict m = false))
    \/ (e = KeyError /\ is_dict data = true /\
        (field ["kind"] data = None \/
         field ["metadata"] data = None \/
         exists m, field ["metadata"] data = Some m /\ is_dict m = true /\
                   field ["metadata"; "name"] data = None)).
Proof.
  intros data e. unfold from_dict.
  destruct data as [s|l|d]; simpl.
  - intros H. injection H as <-. left. auto.
  - intros H. injection H as <-. left. auto.
  - destruct (Dict.get "kind" d) as [k|]; simpl.
    2:{ intros H. injection H as <-. right. auto. }
    destruct (Dict.get "metadata" d) as [m|]; simpl.
    2:{ intros H. injection H as <-. right. auto. }
    destruct m as [s|l|m]; simpl.
    + intros H. injection H as <-. left. split; [reflexivity|]. right.
      exists (VScalar s). repeat split. discriminate.
    + intros H. injection H as <-. left. split; [reflexivity|]. right.
      exists (VList l). repeat split. discriminate.
    + destruct (Dict.get "name" m) as [n|] eqn:Hname; simpl.
      * destruct (Dict.get "namespace" m); discriminate.
      * intros H. injection H as <-. right.
        split; [reflexivity|]. split; [reflexivity|]. right. right.
        exists (VDict m). auto.
Qed.

Lemma from_dict_errors_witness :
  (TypeError = TypeError /\
   (is_dict (VDict [("kind", VStr "Service"); ("metadata", VStr "web")]) = false \/
    exists m,
      field ["kind"] (VDict [("kind", VStr "Service"); ("metadata", VStr "web")])
        <> None /\
      field ["metadata"] (VDict [("kind", VStr "Service"); ("metadata", VStr "web")])
        = Some m /\
      is_dict m = false))
  \/ (TypeError = KeyError /\
      is_dict (VDict [("kind", VStr "Service"); ("metadata", VStr "web")]) = true /\
      (field ["kind"] (VDict [("kind", VStr "Service"); ("metadata", VStr "web")])
         = None \/
       field ["metadata"] (VDict [("kind", VStr "Service"); ("metadata", VStr "web")])
         = None \/
       exists m,
         field ["metadata"] (VDict [("kind", VStr "Service"); ("metadata", VStr "web")])
           = Some m /\
         is_dict m = true /\
         field ["metadata"; "name"]
               (VDict [("kind", VStr "Service"); ("metadata", VStr "web")]) = None)).
Proof.
  apply (from_dict_errors
           (VDict [("kind", VStr "Service"); ("metadata", VStr "web")]) TypeError).
  reflexivity.
Defined.

(** * Properties of the files that are found *)

Section FilesFound.
Variable isfile : string -> bool.
Variable walk : string -> list (string * list string * list string).
Variable join : string -> string -> string.

Lemma iter_files_app (paths paths' : list string) :
  Files.iter_files isfile walk join (paths ++ paths') =
  Files.iter_files isfile walk join paths ++
  Files.iter_files isfile walk join paths'.
Proof.
  induction paths as [|path paths IH]; simpl; [reflexivity|].
  now rewrite IH, app_assoc.
Qed.

Lemma iter_files_of_files (paths : list string) :
  forallb isfile paths = true ->
  Files.iter_files isfile walk join paths = paths.
Proof.
  induction paths as [|path paths IH]; simpl; [reflexivity|].
  intros H. apply andb_prop in H as [-> Hrest]. simpl. now rewrite IH.
Qed.

Lemma iter_files_found (paths : list string) (file : string) :
  In file (Files.iter_files isfile walk join paths) <->
  exists path,
    In path paths /\
    ((isfile path = true /\ file = path) \/
     (isfile path = false /\
      exists root dirs filenames filename,
        In (root, dirs, filenames) (walk path) /\
        In filename filenames /\ file = join root filename)).
Proof.
  induction paths as [|path paths IH]; simpl.
  - split; [intros [] | intros (? & [] & _)].
  - rewrite in_app_iff, IH. split.
    + intros [Hhere|(path' & Hin & Hrest)].
      * exists path. split; [now left|].
        destruct (isfile path).
        -- left. destruct Hhere as [<-|[]]. auto.
        -- right. split; [reflexivity|].
           unfold Files.files_below in Hhere.
           apply in_flat_map in Hhere as ([[root dirs] filenames] & Hw & Hf).
           apply in_map_iff in Hf as (filename & <- & Hf).
           exists root, dirs, filenames, filename. auto.
      * exists path'. auto.
    + intros (path' & [<-|Hin] & Hrest).
      * left. destruct Hrest as [[-> ->]|[-> (root & dirs & filenames & filename & Hw & Hf & ->)]].
        -- now left.
        -- unfold Files.files_below. apply in_flat_map.
           exists (root, dirs, filenames). split; [exact Hw|].
           apply in_map_iff. eauto.
      * right. exists path'. auto.
Qed.
End FilesFound.

(** X16: [iter_files] yields a path that is a file as it is, and for
    any other path the files that [os.walk] lists below it, each joined to
    its directory, and nothing else; the files come in the order of the
    paths, so that the files of two lists of paths, one after the other,
    are the files of the first list and then those of the second. *)
Theorem iter_files_yields :
  forall (isfile : string -> bool)
         (walk : string -> list (string * list string * list string))
         (join : string -> string -> string)
         (paths paths' : list string),
    (forall file,
        In file (Files.iter_files isfile walk join paths) <->
        exists path,
          In path paths /\
          ((isfile path = true /\ file = path) \/
           (isfile path = false /\
            exists root dirs filenames filename,
              In (root, dirs, filenames) (walk path) /\
              In filename filenames /\ file = join root filename)))
    /\ (forallb isfile paths = true ->
        Files.iter_files isfile walk join paths = paths)
    /\ Files.iter_files isfile walk join (paths ++ paths') =
       Files.iter_files isfile walk join paths ++
       Files.iter_files isfile walk join paths'.
Proof.
  intros isfile walk join paths paths'. split; [|split].
  - intros file. apply iter_files_found.
  - apply iter_files_of_files.
  - apply iter_files_app.
Qed.

Lemma iter_files_yields_witness :
  Files.iter_files (fun path => String.eqb path "a.yaml")
                   (fun _ => [("conf", ["sub"], ["b.yaml"; "notes.txt"]);
                              ("conf/sub", [], ["c.yaml"])])
                   (fun root filename => (root ++ "/" ++ filename)%string)
                   ["a.yaml"; "a.yaml"] =
  ["a.yaml"; "a.yaml"].
Proof.
  apply (proj1 (proj2 (iter_files_yields
                         (fun path => String.eqb path "a.yaml")
                         (fun _ => [("conf", ["sub"], ["b.yaml"; "notes.txt"]);
                                    ("conf/sub", [], ["c.yaml"])])
                         (fun root filename => (root ++ "/" ++ filename)%string)
                         ["a.yaml"; "a.yaml"] []))).
  reflexivity.
Defined.

(** A file and a directory: the file as it is, then the files below the
    directory. *)
Example iter_files_example :
  Files.iter_files (fun path => String.eqb path "a.yaml")
                   (fun _ => [("conf", ["sub"], ["b.yaml"; "notes.txt"]);
                              ("conf/sub", [], ["c.yaml"])])
                   (fun root filename => (root ++ "/" ++ filename)%string)
                   ["a.yaml"; "conf"] =
  ["a.yaml"; "conf/b.yaml"; "conf/notes.txt"; "conf/sub/c.yaml"].
Proof. reflexivity. Qed.

(** * A failed fetch in a batch *)

(** X17: when the fetch fails for the first file that [check_files]
    checks, the batch on the aggregating printer ends in [TypeError]: the
    object is registered, the record of the object has gained the entry of
    the synthetic Difference, and nothing is printed, whatever files
    follow. *)
Theorem check_files_fetch_failure :
  forall (yaml_load : string -> value)
         (get_from_cluster : KubeObject -> fetch_result)
         (iter_files : list string -> list string)
         (splitext_extension : string -> string)
         (paths : list string) (path : string) (files : list string)
         (kube_obj : KubeObject) (k n : scalar) (output : string)
         (self : JSONPrinter.t),
    iter_files paths = path :: files ->
    splitext_extension path = ".yaml" ->
    from_dict (yaml_load path) = Ok kube_obj ->
    kind kube_obj = VScalar k ->
    name kube_obj = VScalar n ->
    get_from_cluster kube_obj = CalledProcessError output ->
    snd (check_files yaml_load get_from_cluster iter_files splitext_extension
                     paths self) = Raise TypeError
    /\ JSONPrinter.record_of k n
         (fst (check_files yaml_load get_from_cluster iter_files
                           splitext_extension paths self)) =
       Some (record_or_empty k n self ++ [entry_of (broken_cluster output)])
    /\ JSONPrinter.printed
         (fst (check_files yaml_load get_from_cluster iter_files
                           splitext_extension paths self)) =
       JSONPrinter.printed self.
Proof.
  intros yaml_load get_from_cluster iter_files splitext_extension paths path
         files kube_obj k n output self Hfiles Hext Hobj Hk Hn Hfetch.
  pose proof (record_after_add kube_obj k n self Hk Hn) as Hr.
  destruct (record_after_diff kube_obj k n (broken_cluster output) _ _ Hk Hn Hr)
    as [Hdiff Hrec].
  rewrite (check_files_none yaml_load get_from_cluster iter_files
             splitext_extension paths path files self
             (fst (JSONPrinter.diff kube_obj (broken_cluster output)
                     (fst (JSONPrinter.add kube_obj self))))
             Hfiles Hext).
  - simpl fst. simpl snd. split; [reflexivity|]. split; [exact Hrec|].
    now rewrite diff_printed, add_printed.
  - apply (check_file_fetch_failure yaml_load get_from_cluster path kube_obj
             output self (fst (JSONPrinter.add kube_obj self))); auto.
    exact (add_returns kube_obj k n self Hk Hn).
Qed.

Lemma check_files_fetch_failure_witness :
  snd (check_files two_services cluster_without_a plain_files yaml_extension
                   ["a.yaml"; "b.yaml"]
                   (JSONPrinter.mk [(SStr "Service", [(SStr "a", [[VNone; VStr "old"]])])] []))
  = Raise TypeError
  /\ JSONPrinter.record_of (SStr "Service") (SStr "a")
       (fst (check_files two_services cluster_without_a plain_files yaml_extension
                         ["a.yaml"; "b.yaml"]
                         (JSONPrinter.mk
                            [(SStr "Service", [(SStr "a", [[VNone; VStr "old"]])])] [])))
     = Some (record_or_empty (SStr "Service") (SStr "a")
               (JSONPrinter.mk
                  [(SStr "Service", [(SStr "a", [[VNone; VStr "old"]])])] [])
             ++ [entry_of (broken_cluster "Error from server (NotFound)")])
  /\ JSONPrinter.printed
       (fst (check_files two_services cluster_without_a plain_files yaml_extension
                         ["a.yaml"; "b.yaml"]
                         (JSONPrinter.mk
                            [(SStr "Service", [(SStr "a", [[VNone; VStr "old"]])])] [])))
     = JSONPrinter.printed
         (JSONPrinter.mk [(SStr "Service", [(SStr "a", [[VNone; VStr "old"]])])] []).
Proof.
  apply (check_files_fetch_failure two_services cluster_without_a plain_files
           yaml_extension ["a.yaml"; "b.yaml"] "a.yaml" ["b.yaml"]
           (mkKubeObject (VStr "default") (VStr "Service") (VStr "a"))
           (SStr "Service") (SStr "a") "Error from server (NotFound)");
    reflexivity.
Defined.

(** * The order of the keys of the declared tree *)

Lemma diff_dicts_bindings (p : string) (want : list (string * value))
      (have : value) :
  diff_dicts p want have = gen_concat (map (diff_binding p have) want).
Proof.
  induction want as [|[k want_v] want IH]; [reflexivity|].
  rewrite diff_dicts_cons. simpl map. simpl gen_concat. rewrite <- IH.
  unfold diff_binding.
  destruct (py_contains k have) as [[|]|e]; [|reflexivity|reflexivity].
  now destruct (py_getitem have k).
Qed.

Lemma gen_concat_raised_none (gs : list Gen) :
  raised (gen_concat gs) = None -> forall g, In g gs -> raised g = None.
Proof.
  induction gs as [|g0 gs IH]; simpl; [intros _ g []|].
  unfold gen_seq. destruct (raised g0) eqn:E; [congruence|]. simpl.
  intros Hrest g [<-|Hin]; [exact E | now apply IH].
Qed.

(** X18: the order in which the declared mapping iterates changes only
    the order of the report: for two declared mappings with the same
    bindings in another order, when [diff] raises nothing for the one it
    raises nothing for the other, and the Differences it yields are the
    same, each as many times, in another order. *)
Theorem diff_reordered_want :
  forall (p : string) (want want' : list (string * value)) (have : value),
    Permutation want want' ->
    raised (diff p (VDict want) have) = None ->
    raised (diff p (VDict want') have) = None
    /\ Permutation (yielded (diff p (VDict want) have))
                   (yielded (diff p (VDict want') have)).
Proof.
  intros p want want' have Hperm. rewrite !diff_dict, !diff_dicts_bindings.
  intros Hnone.
  pose proof (gen_concat_raised_none _ Hnone) as Hall.
  assert (Hall' : forall g, In g (map (diff_binding p have) want') ->
                            raised g = None).
  { intros g Hg. apply Hall. apply in_map_iff in Hg as (b & <- & Hb).
    apply in_map. apply (Permutation_in b (Permutation_sym Hperm) Hb). }
  rewrite (gen_concat_no_raise _ Hall), (gen_concat_no_raise _ Hall').
  split; [reflexivity|]. simpl. rewrite !map_map, <- !flat_map_concat_map.
  now apply Permutation_flat_map.
Qed.

Lemma diff_reordered_want_witness :
  raised (diff "" (VDict [("b", VInt 2); ("a", VInt 1)]) (VDict [])) = None
  /\ Permutation
       (yielded (diff "" (VDict [("a", VInt 1); ("b", VInt 2)]) (VDict [])))
       (yielded (diff "" (VDict [("b", VInt 2); ("a", VInt 1)]) (VDict []))).
Proof.
  apply (diff_reordered_want "" [("a", VInt 1); ("b", VInt 2)]
           [("b", VInt 2); ("a", VInt 1)] (VDict [])).
  - apply perm_swap.
  - reflexivity.
Defined.

(** The two orders give the two "missing item" Differences in the two
    orders. *)
Example diff_reordered_want_example :
  yielded (diff "" (VDict [("a", VInt 1); ("b", VInt 2)]) (VDict [])) =
    [missing_item "" "a"; missing_item "" "b"]
  /\ yielded (diff "" (VDict [("b", VInt 2); ("a", VInt 1)]) (VDict [])) =
    [missing_item "" "b"; missing_item "" "a"].
Proof. split; reflexivity. Qed.
